(** * The live handler: construction, the stateless request path and the
      websocket connection logic

    A shallow embedding of [handler.go] (the base handler and its registry of
    mount, render, error, event, self and params handlers) and of the net/http
    adapter ([NewHandler], [ServeHTTP], [serveHTTP], [serveWS], [_serveWS],
    [writeTimeout], [assignWS]).

    Go values are modelled as follows.
    - [error] is an inductive type with the sentinels of the package, the
      close error of the websocket library and the wrapper built by
      [fmt.Errorf("...: %w", err)]; a nil error is [None].
    - Go maps are [gmap]s, slices are lists, the set of live sockets is a
      [gset] of socket identifiers.
    - Calls on the response writer, the session store, the logger and the
      websocket connection are recorded, in program order, in a trace of
      [Effect]s.
    - What the environment decides (the outcome of a read or a write on the
      connection, which case of the [select] is ready) is an input. *)

From stdpp Require Import gmap strings pretty list fin_maps.

(** ** Errors *)

Inductive error : Type :=
| ErrNoEventHandler                     (* sentinel of the package *)
| ErrNoRenderer                         (* sentinel of the package *)
| context_Canceled                      (* context.Canceled *)
| CloseError (code : Z)                 (* websocket.CloseError{Code: code} *)
| errorString (msg : string)            (* errors.New(msg), any other library error *)
| Errorf (msg : string) (w : error)     (* fmt.Errorf(msg + ": %w", w) *)
| ErrorfNil (msg : string).             (* fmt.Errorf(msg + ": %w", nil): wraps nothing *)

#[global] Instance error_eq_dec : EqDecision error.
Proof. solve_decision. Defined.

(** [fmt.Errorf] with one [%w] verb, applied to a possibly nil error. *)
Definition fmt_Errorf (msg : string) (err : option error) : error :=
  match err with
  | Some e => Errorf msg e
  | None => ErrorfNil msg
  end.

(** [errors.Is] on a non-nil error: equality with the target somewhere along
    the [Unwrap] chain. *)
Fixpoint Is (err target : error) : bool :=
  if decide (err = target) then true
  else match err with
       | Errorf _ w => Is w target
       | _ => false
       end.

(** [errors.Is(err, target)] for a non-nil target: a nil [err] is not it. *)
Definition errors_Is (err : option error) (target : error) : bool :=
  match err with
  | Some e => Is e target
  | None => false
  end.

Definition StatusNormalClosure : Z := 1000.
Definition StatusGoingAway : Z := 1001.
Definition StatusPolicyViolation : Z := 1008.
Definition StatusInternalError : Z := 1011.

(** [websocket.CloseStatus]: the code of the first [CloseError] along the
    chain, and -1 when there is none (in particular for a nil error). *)
Fixpoint closeStatusOf (err : error) : Z :=
  match err with
  | CloseError code => code
  | Errorf _ w => closeStatusOf w
  | _ => (-1)%Z
  end.

Definition websocket_CloseStatus (err : option error) : Z :=
  match err with
  | Some e => closeStatusOf e
  | None => (-1)%Z
  end.

Inductive result (A : Type) : Type :=
| Ok (a : A)
| Fail (e : error).
Arguments Ok {A} a.
Arguments Fail {A} e.

(** ** Data *)

(** A value of Go's [any]: [Nil] is the nil interface. *)
Inductive any : Type :=
| Nil
| AString (s : string)
| AInt (n : Z)
| ABool (b : bool).

#[global] Instance any_eq_dec : EqDecision any.
Proof. solve_decision. Defined.

Definition SocketID := string.

Record Session := {
  sessionID : string;
  sessionValues : gmap string any
}.

(** [url.Values] with its [Get] and [Set]. *)
Abbreviation Values := (gmap string (list string)).

Definition Values_Get (v : Values) (key : string) : string :=
  match v !! key with
  | Some (x :: _) => x
  | _ => ""
  end.

Definition Values_Set (v : Values) (key value : string) : Values :=
  <[key := [value]]> v.

(** A URL: its path and its query.  The raw query of the Go URL is kept
    decoded: [r.URL.Query()] reads [Query], and assigning [q.Encode()] to
    [r.URL.RawQuery] writes it. *)
Record URL := {
  Path : string;
  Query : Values
}.

Record Request := {
  reqURL : URL;
  Header : gmap string (list string)
}.

Abbreviation Params := Values (only parsing).

(** The rendered tree, [*html.Node]. *)
#[local] Unset Elimination Schemes.
Inductive Node : Type :=
| TextNode (content : string)
| ElementNode (tag : string) (attrs : list (string * string)) (children : list Node).
#[local] Set Elimination Schemes.

(** A patch operation against the position reached by a path of child
    indices. *)
Inductive PatchOp : Type :=
| SetAttribute (name value : string)
| RemoveAttribute (name : string)
| ReplaceText (content : string)
| InsertChildAt (index : nat) (child : Node)
| RemoveChildAt (index : nat)
| MoveChild (from to : nat)
| ReplaceSubtree (tree : Node).

Record Patch := {
  patchPath : list nat;
  patchOp : PatchOp
}.

(** The payload of a wire message, [json.RawMessage].  The encodings that
    the connection logic builds itself are kept symbolic: [PErrorText e] is
    [json.Marshal(e.Error())], and [PErrorEvent] is [json.Marshal] of an
    [ErrorEvent]. *)
Inductive Payload : Type :=
| PNull
| PRaw (json : string)
| PPatches (patches : list Patch)
| PErrorText (e : error)
| PErrorEvent (sourceT : string) (sourceID : Z) (sourceData : Payload)
    (e : option error).

(** The wire message [{type, id, data}]. *)
Record Event := {
  T : string;
  ID : Z;
  Data : Payload
}.

Record ErrorEvent := {
  Source : Event;
  Err : option error      (* [Some e]: the text [e.Error()]; [None]: the empty text *)
}.

Definition marshalErrorEvent (ee : ErrorEvent) : Payload :=
  PErrorEvent (T (Source ee)) (ID (Source ee)) (Data (Source ee)) (Err ee).

(** Modelled from the spec: the type tags of the wire messages (connect,
    params-changed, acknowledge, error, patch); the constants are declared in
    a file that is not under src/.  Any other tag is the name of an event. *)
Definition EventConnect : string := "connect".
Definition EventParams : string := "params".
Definition EventAck : string := "ack".
Definition EventError : string := "err".
Definition EventPatch : string := "patch".

(** Modelled from the spec: the per-connection state container of the
    socket, which is not under src/: the current state value, the connected
    flag, the most recent snapshot (absent until the first render) and the
    outbound message queue.  [closeSlow] is the action installed by
    [assignWS] (close code and reason); [slow] records that it has fired. *)
Record Socket := {
  sockID : SocketID;
  sockSession : Session;
  connected : bool;
  assigns : any;
  latestRender : option Node;
  msgs : list Event;
  closeSlow : option (Z * string);
  slow : bool
}.

(** The context of a request: [httpContext] attaches the request and the
    response writer; [Writer(ctx)] is nil when no writer was attached. *)
Record Context := {
  ctxRequest : option Request;
  ctxWriter : bool
}.

Definition httpContext (r : Request) : Context :=
  {| ctxRequest := Some r; ctxWriter := true |}.

Inductive Body : Type :=
| Html (doc : string)
| ErrorText (e : error).    (* []byte(err.Error()) *)

(** A call on the [http.ResponseWriter]. *)
Inductive WriterOp : Type :=
| WriteHeader (code : Z)
| WriteBytes (body : Body).

(** ** handler.go *)

Record RenderContext := {
  rcSocket : Socket;
  rcAssigns : any
}.

Definition MountHandler := Context -> Socket -> any * option error.
Definition UnmountHandler := Socket -> option error.
(* The [io.Reader] is the text it yields; a handler returns either that or
   an error. *)
Definition RenderHandler := Context -> RenderContext -> result string.
Definition ErrorHandler := Context -> error -> list WriterOp.
Definition EventHandler := Context -> Socket -> Params -> any * option error.
Definition SelfHandler := Context -> Socket -> any -> any * option error.

Record BaseHandler := {
  mountHandler : MountHandler;
  unmountHandler : UnmountHandler;
  renderHandler : RenderHandler;
  errorHandler : ErrorHandler;
  eventHandlers : gmap string EventHandler;
  selfHandlers : gmap string SelfHandler;
  paramsHandlers : list EventHandler
}.

(** A functional option.  It is handed the handler through the [Handler]
    interface, whose registration methods all act on the base handler; it
    may change the handler before it fails. *)
Definition HandlerConfig := BaseHandler -> BaseHandler * option error.

Definition HandleMount (f : MountHandler) (h : BaseHandler) : BaseHandler :=
  {| mountHandler := f; unmountHandler := unmountHandler h;
     renderHandler := renderHandler h; errorHandler := errorHandler h;
     eventHandlers := eventHandlers h; selfHandlers := selfHandlers h;
     paramsHandlers := paramsHandlers h |}.

Definition HandleUnmount (f : UnmountHandler) (h : BaseHandler) : BaseHandler :=
  {| mountHandler := mountHandler h; unmountHandler := f;
     renderHandler := renderHandler h; errorHandler := errorHandler h;
     eventHandlers := eventHandlers h; selfHandlers := selfHandlers h;
     paramsHandlers := paramsHandlers h |}.

Definition HandleRender (f : RenderHandler) (h : BaseHandler) : BaseHandler :=
  {| mountHandler := mountHandler h; unmountHandler := unmountHandler h;
     renderHandler := f; errorHandler := errorHandler h;
     eventHandlers := eventHandlers h; selfHandlers := selfHandlers h;
     paramsHandlers := paramsHandlers h |}.

Definition HandleError (f : ErrorHandler) (h : BaseHandler) : BaseHandler :=
  {| mountHandler := mountHandler h; unmountHandler := unmountHandler h;
     renderHandler := renderHandler h; errorHandler := f;
     eventHandlers := eventHandlers h; selfHandlers := selfHandlers h;
     paramsHandlers := paramsHandlers h |}.

Definition HandleEvent (t : string) (handler : EventHandler) (h : BaseHandler)
  : BaseHandler :=
  {| mountHandler := mountHandler h; unmountHandler := unmountHandler h;
     renderHandler := renderHandler h; errorHandler := errorHandler h;
     eventHandlers := <[t := handler]> (eventHandlers h);
     selfHandlers := selfHandlers h;
     paramsHandlers := paramsHandlers h |}.

Definition HandleSelf (t : string) (handler : SelfHandler) (h : BaseHandler)
  : BaseHandler :=
  {| mountHandler := mountHandler h; unmountHandler := unmountHandler h;
     renderHandler := renderHandler h; errorHandler := errorHandler h;
     eventHandlers := eventHandlers h;
     selfHandlers := <[t := handler]> (selfHandlers h);
     paramsHandlers := paramsHandlers h |}.

Definition HandleParams (handler : EventHandler) (h : BaseHandler) : BaseHandler :=
  {| mountHandler := mountHandler h; unmountHandler := unmountHandler h;
     renderHandler := renderHandler h; errorHandler := errorHandler h;
     eventHandlers := eventHandlers h; selfHandlers := selfHandlers h;
     paramsHandlers := paramsHandlers h ++ [handler] |}.

Definition getMount (h : BaseHandler) : MountHandler := mountHandler h.
Definition getUnmount (h : BaseHandler) : UnmountHandler := unmountHandler h.
Definition getRender (h : BaseHandler) : RenderHandler := renderHandler h.
Definition getError (h : BaseHandler) : ErrorHandler := errorHandler h.
Definition getParams (h : BaseHandler) : list EventHandler := paramsHandlers h.

Definition getEvent (h : BaseHandler) (t : string) : result EventHandler :=
  match eventHandlers h !! t with
  | None => Fail (Errorf ("no event handler for " +:+ t) ErrNoEventHandler)
  | Some handler => Ok handler
  end.

Definition getSelf (h : BaseHandler) (t : string) : result SelfHandler :=
  match selfHandlers h !! t with
  | None => Fail (Errorf ("no self handler for " +:+ t) ErrNoEventHandler)
  | Some handler => Ok handler
  end.

(** The handler that [NewHandler] starts from, before any option. *)
Definition defaultHandler : BaseHandler :=
  {| mountHandler := fun _ _ => (Nil, None);
     unmountHandler := fun _ => None;
     renderHandler := fun _ _ => Fail ErrNoRenderer;
     errorHandler := fun ctx err =>
       if ctxWriter ctx then [WriteHeader 500; WriteBytes (ErrorText err)] else [];
     eventHandlers := ∅;
     selfHandlers := ∅;
     paramsHandlers := [] |}.

(** A line of the log. *)
Inductive LogEntry : Type :=
| LogWarn (msg : string) (e : error)          (* slog.Warn(msg, "error", e) *)
| LogError (e : error)                        (* log.Println(e) *)
| LogEventError (m : Event) (e : error)       (* log.Println("event error", m, e) *)
| LogText (msg : string)                      (* log.Println(msg) *)
| LogWsClosed (status : Z) (err : option error).
    (* log.Println(fmt.Errorf("ws closed with status (%d): %w", status, err)) *)

(** The loop of [NewHandler] in handler.go: every option is applied, in
    order; a failing one is reported with a warning and the loop goes on. *)
Fixpoint applyConfigsWarn (configs : list HandlerConfig) (h : BaseHandler)
  (log : list LogEntry) : BaseHandler * list LogEntry :=
  match configs with
  | [] => (h, log)
  | conf :: rest =>
      let '(h', err) := conf h in
      applyConfigsWarn rest h'
        (match err with
         | Some e => log ++ [LogWarn "could not apply config to handler" e]
         | None => log
         end)
  end.

(** [NewHandler] of handler.go: the handler and the lines it logged. *)
Definition NewHandler (configs : list HandlerConfig) : BaseHandler * list LogEntry :=
  applyConfigsWarn configs defaultHandler [].

(** ** The net/http adapter *)

(** What the adapter takes from libraries and from files that are not under
    src/: the parser and the printer of the html package, the size of the
    outbound queue of a socket, the patch computation between two existing
    snapshots and the decoding of the parameters of a wire message. *)
Class Platform := {
  maxMessageBufferSize : nat;
  html_Parse : string -> result Node;
  html_Render : Node -> string;
  diffNodes : Node -> Node -> result (list Patch);
  Event_Params : Event -> result Params
}.

Record HTTPSessionStore := {
  store_Get : Request -> Session * option error;
  store_Save : Request -> Session -> option error;
  store_Clear : Request -> option error
}.

(** [HTTPHandler]: the store and the embedded base handler. *)
Record HTTPHandler := {
  sessionStore : HTTPSessionStore;
  base : BaseHandler
}.

Definition StatusTemporaryRedirect : Z := 307.

Inductive Effect : Type :=
| ELog (l : LogEntry)
| EClear                                        (* sessionStore.Clear(w, r) *)
| ESave (s : Session)                           (* sessionStore.Save(w, r, s) *)
| ERedirect (u : URL) (code : Z)                (* http.Redirect(w, r, u, code) *)
| EError (e : error) (ops : list WriterOp)      (* h.Error()(ctx, e) and what it wrote *)
| EWriter (op : WriterOp)                       (* a call on w by the adapter itself *)
| EAccept (res : option error)                  (* websocket.Accept(w, r, nil) *)
| EWsWrite (timeout : Z) (msg : Event) (res : option error)
                                                (* writeTimeout(ctx, timeout s, c, msg) *)
| EWsClose (code : Z) (reason : string).        (* c.Close(code, reason) *)

(** The state shared by all the requests served by one handler: the set of
    live sockets, and the trace of what has been done so far. *)
Record World := {
  live : gset SocketID;
  trace : list Effect
}.

Definition emit (e : Effect) (w : World) : World :=
  {| live := live w; trace := trace w ++ [e] |}.

(** Modelled from the spec: [AddSocket] and [DeleteSocket], which are not
    under src/: a socket is registered into the live set of the handler on
    connect and deregistered on disconnect. *)
Definition AddSocket (sock : Socket) (w : World) : World :=
  {| live := {[sockID sock]} ∪ live w; trace := trace w |}.

Definition DeleteSocket (sock : Socket) (w : World) : World :=
  {| live := live w ∖ {[sockID sock]}; trace := trace w |}.

(** Modelled from the spec: [NewBaseSocket], which is not under src/: a
    created socket has no state assigned and no render performed.  The
    identifier of the new socket is chosen by the environment. *)
Definition NewBaseSocket (id : SocketID) (s : Session) (isConnected : bool) : Socket :=
  {| sockID := id; sockSession := s; connected := isConnected; assigns := Nil;
     latestRender := None; msgs := []; closeSlow := None; slow := false |}.

Definition NewHTTPSocket (id : SocketID) (s : Session) (isConnected : bool) : Socket :=
  NewBaseSocket id s isConnected.

Definition assignWS (s : Socket) : Socket :=
  {| sockID := sockID s; sockSession := sockSession s; connected := connected s;
     assigns := assigns s; latestRender := latestRender s; msgs := msgs s;
     closeSlow := Some (StatusPolicyViolation,
                        "socket too slow to keep up with messages");
     slow := slow s |}.

(** Modelled from the spec: [Assign] and [UpdateRender] of the socket, which
    are not under src/: they replace the state value and the stored
    snapshot. *)
Definition Assign (data : any) (s : Socket) : Socket :=
  {| sockID := sockID s; sockSession := sockSession s; connected := connected s;
     assigns := data; latestRender := latestRender s; msgs := msgs s;
     closeSlow := closeSlow s; slow := slow s |}.

Definition UpdateRender (render : Node) (s : Socket) : Socket :=
  {| sockID := sockID s; sockSession := sockSession s; connected := connected s;
     assigns := assigns s; latestRender := Some render; msgs := msgs s;
     closeSlow := closeSlow s; slow := slow s |}.

Definition setMsgs (q : list Event) (s : Socket) : Socket :=
  {| sockID := sockID s; sockSession := sockSession s; connected := connected s;
     assigns := assigns s; latestRender := latestRender s; msgs := q;
     closeSlow := closeSlow s; slow := slow s |}.

Definition fireCloseSlow (s : Socket) : Socket :=
  {| sockID := sockID s; sockSession := sockSession s; connected := connected s;
     assigns := assigns s; latestRender := latestRender s; msgs := msgs s;
     closeSlow := closeSlow s; slow := true |}.

(** An option of [Send], such as [WithID]. *)
Definition EventConfig := Event -> Event * option error.

(** Modelled from the spec: [WithID], which is not under src/: it sets the
    correlation identifier of the event. *)
Definition WithID (id : Z) : EventConfig :=
  fun e => ({| T := T e; ID := id; Data := Data e |}, None).

Fixpoint configureEvent (options : list EventConfig) (msg : Event) : result Event :=
  match options with
  | [] => Ok msg
  | o :: rest =>
      match o msg with
      | (_, Some err) => Fail err
      | (msg', None) => configureEvent rest msg'
      end
  end.

Definition NewParamsFromRequest (r : Request) : Params := Query (reqURL r).

Section Adapter.
Context `{Platform}.

(** Modelled from the spec: [Send] of the socket, which is not under src/:
    the event is queued on the bounded outbound queue of the socket; when
    the queue is full the event is not queued and the slow-consumer close
    fires. *)
Definition Send (event : string) (data : Payload) (options : list EventConfig)
  (s : Socket) : Socket * option error :=
  match configureEvent options {| T := event; ID := 0; Data := data |} with
  | Fail err => (s, Some err)
  | Ok msg =>
      if decide (length (msgs s) < maxMessageBufferSize)%nat
      then (setMsgs (msgs s ++ [msg]) s, None)
      else (fireCloseSlow s, None)
  end.

(** Modelled from the spec: the result of [Diff], which is not under src/:
    a serialized full tree or a patch set. *)
Inductive DiffResult : Type :=
| FullTree (doc : string)
| PatchSet (patches : list Patch).

(** Modelled from the spec: [Diff(previous: Tree|absent, current: Tree) ->
    PatchSet|FullTree], which is not under src/: with no previous snapshot
    the result is the serialized full tree, otherwise the patch set between
    the two snapshots. *)
Definition Diff (previous : option Node) (current : Node) : result DiffResult :=
  match previous with
  | None => Ok (FullTree (html_Render current))
  | Some prev =>
      match diffNodes prev current with
      | Ok patches => Ok (PatchSet patches)
      | Fail err => Fail err
      end
  end.

(** Modelled from the spec: [RenderSocket], which is not under src/: the
    render handler turns the current state into a tree snapshot, the tree is
    diffed against the stored snapshot of the socket, and a patch set that is
    not empty is queued for the client; on first paint nothing is queued. *)
Definition RenderSocket (h : BaseHandler) (ctx : Context) (s : Socket)
  : Socket * result Node :=
  match getRender h ctx {| rcSocket := s; rcAssigns := assigns s |} with
  | Fail err => (s, Fail err)
  | Ok output =>
      match html_Parse output with
      | Fail err => (s, Fail err)
      | Ok render =>
          match Diff (latestRender s) render with
          | Fail err => (s, Fail err)
          | Ok (FullTree _) => (s, Ok render)
          | Ok (PatchSet []) => (s, Ok render)
          | Ok (PatchSet patches) =>
              (fst (Send EventPatch (PPatches patches) [] s), Ok render)
          end
      end
  end.

(** Modelled from the spec: [CallEvent], which is not under src/: the event
    type is resolved with [getEvent], the handler is invoked with the
    parameters of the message, and the state it returns is assigned to the
    socket. *)
Definition CallEvent (h : BaseHandler) (ctx : Context) (t : string) (sock : Socket)
  (msg : Event) : Socket * option error :=
  match getEvent h t with
  | Fail err => (sock, Some err)
  | Ok handler =>
      match Event_Params msg with
      | Fail err => (sock, Some err)
      | Ok params =>
          match handler ctx sock params with
          | (_, Some err) => (sock, Some err)
          | (data, None) => (Assign data sock, None)
          end
      end
  end.

(** The loop over the params handlers (serveHTTP and _serveWS): each handler
    is invoked in registration order, its state is assigned to the socket,
    and the first error ends the loop. *)
Fixpoint runParams (phs : list EventHandler) (ctx : Context) (params : Params)
  (sock : Socket) : Socket * option error :=
  match phs with
  | [] => (sock, None)
  | ph :: rest =>
      match ph ctx sock params with
      | (_, Some err) => (sock, Some err)
      | (data, None) => runParams rest ctx params (Assign data sock)
      end
  end.

(** Modelled from the spec: [CallParams], which is not under src/: on a
    parameter-change event all the params handlers are invoked in order. *)
Definition CallParams (h : BaseHandler) (ctx : Context) (sock : Socket) (msg : Event)
  : Socket * option error :=
  match Event_Params msg with
  | Fail err => (sock, Some err)
  | Ok params => runParams (getParams h) ctx params sock
  end.

(** [h.Error()(ctx, err)]. *)
Definition callError (h : HTTPHandler) (ctx : Context) (err : error) (w : World)
  : World :=
  emit (EError err (getError (base h) ctx err)) w.

(** [serveHTTP]: the world after the request, and the socket of the request
    when one was created. *)
Definition serveHTTP (h : HTTPHandler) (ctx : Context) (r : Request) (sid : SocketID)
  (w : World) : World * option Socket :=
  match store_Get (sessionStore h) r with
  | (_, Some err) =>
      if decide (Values_Get (Query (reqURL r)) "live-repair" ≠ "")
      then (callError h ctx (Errorf "session corrupted" err) w, None)
      else
        let w := emit (ELog (LogError (Errorf "session corrupted trying to repair" err))) w in
        let w := emit EClear w in
        let q := Values_Set (Query (reqURL r)) "live-repair" "1" in
        let u := {| Path := Path (reqURL r); Query := q |} in
        (emit (ERedirect u StatusTemporaryRedirect) w, None)
  | (session, None) =>
      let sock := NewHTTPSocket sid session false in
      match getMount (base h) ctx sock with
      | (_, Some err) => (callError h ctx err w, Some sock)
      | (data, None) =>
          let sock := Assign data sock in
          match runParams (getParams (base h)) ctx (NewParamsFromRequest r) sock with
          | (sock, Some err) => (callError h ctx err w, Some sock)
          | (sock, None) =>
              match RenderSocket (base h) ctx sock with
              | (sock, Fail err) => (callError h ctx err w, Some sock)
              | (sock, Ok render) =>
                  let sock := UpdateRender render sock in
                  let rendered := html_Render render in
                  let w := emit (ESave session) w in
                  match store_Save (sessionStore h) r session with
                  | Some err => (callError h ctx err w, Some sock)
                  | None =>
                      let w := emit (EWriter (WriteHeader 200)) w in
                      (emit (EWriter (WriteBytes (Html rendered))) w, Some sock)
                  end
              end
          end
      end
  end.

(** *** The websocket connection *)

(** What [c.Read] returns to the reading goroutine. *)
Inductive Frame : Type :=
| ReadFailed (err : error)
| TextMessage (m : result Event)    (* a text frame and what json.Unmarshal makes of it *)
| BinaryMessage.

(** Where the reading goroutine of [_serveWS] stands.  The two channels are
    unbuffered, so the goroutine waits at each send until the loop of
    [_serveWS] receives the value. *)
Inductive Reader : Type :=
| AtRead                                         (* in c.Read *)
| AtSendReadErr (err : error)                    (* internalErrors <- err, then leaves *)
| AtSendUnmarshalErr (err : error)               (* internalErrors <- err *)
| AtSendEventError (ee : ErrorEvent) (m : Event) (* eventErrors <- ee, then renders *)
| AtSendRenderErr (err : error) (m : Event)      (* internalErrors <- err, then acknowledges *)
| AtSendAckErr (err : error)                     (* internalErrors <- err *)
| Finished.                                      (* has closed both channels *)

(** A connection: the world, the socket of the connection (shared by the
    goroutine and the loop) and the position of the goroutine. *)
Record Conn := {
  cWorld : World;
  cSock : Socket;
  cReader : Reader
}.

Definition setReader (rd : Reader) (c : Conn) : Conn :=
  {| cWorld := cWorld c; cSock := cSock c; cReader := rd |}.

Definition setSock (s : Socket) (c : Conn) : Conn :=
  {| cWorld := cWorld c; cSock := s; cReader := cReader c |}.

Definition setWorld (w : World) (c : Conn) : Conn :=
  {| cWorld := w; cSock := cSock c; cReader := cReader c |}.

(** The acknowledgement of message [m], and back to reading. *)
Definition readerAck (m : Event) (c : Conn) : Conn :=
  match Send EventAck PNull [WithID (ID m)] (cSock c) with
  | (s, Some err) =>
      setReader (AtSendAckErr (Errorf "socket send error" err)) (setSock s c)
  | (s, None) => setReader AtRead (setSock s c)
  end.

(** The render that follows the dispatch of message [m]. *)
Definition readerRender (h : HTTPHandler) (ctx : Context) (m : Event) (c : Conn)
  : Conn :=
  match RenderSocket (base h) ctx (cSock c) with
  | (s, Fail err) =>
      setReader (AtSendRenderErr (Errorf "socket handle error" err) m) (setSock s c)
  | (s, Ok render) => readerAck m (setSock (UpdateRender render s) c)
  end.

(** The dispatch of a decoded message: [switch m.T]. *)
Definition dispatch (h : HTTPHandler) (ctx : Context) (m : Event) (sock : Socket)
  : Socket * option error :=
  if decide (T m = EventParams)
  then CallParams (base h) ctx sock m
  else CallEvent (base h) ctx (T m) sock m.

Definition readerDispatch (h : HTTPHandler) (ctx : Context) (m : Event) (c : Conn)
  : Conn :=
  match dispatch h ctx m (cSock c) with
  | (s, None) => readerRender h ctx m (setSock s c)
  | (s, Some err) =>
      if errors_Is (Some err) ErrNoEventHandler
      then readerRender h ctx m
             (setWorld (emit (ELog (LogEventError m err)) (cWorld c)) (setSock s c))
      else setReader (AtSendEventError {| Source := m; Err := Some err |} m)
             (setSock s c)
  end.

(** One turn of the reading goroutine, from the frame that [c.Read] returns
    to the next point where it waits. *)
Definition readerFrame (h : HTTPHandler) (ctx : Context) (f : Frame) (c : Conn)
  : Conn :=
  match f with
  | ReadFailed err => setReader (AtSendReadErr err) c
  | TextMessage (Fail err) => setReader (AtSendUnmarshalErr err) c
  | TextMessage (Ok m) => readerDispatch h ctx m c
  | BinaryMessage =>
      setWorld (emit (ELog (LogText "binary messages unhandled")) (cWorld c)) c
  end.

(** The goroutine goes on once the value it was sending has been received. *)
Definition readerResume (h : HTTPHandler) (ctx : Context) (c : Conn) : Conn :=
  match cReader c with
  | AtRead => c
  | AtSendReadErr _ => setReader Finished c
  | AtSendUnmarshalErr _ => setReader AtRead c
  | AtSendEventError _ m => readerRender h ctx m c
  | AtSendRenderErr _ m => readerAck m c
  | AtSendAckErr _ => setReader AtRead c
  | Finished => c
  end.

(** [writeTimeout(ctx, timeout, c, msg)]; whether the write succeeds within
    the timeout is decided by the environment. *)
Definition writeTimeout (timeout : Z) (msg : Event) (res : option error) (w : World)
  : World * option error :=
  (emit (EWsWrite timeout msg res) w, res).

(** What the scheduler does next: the goroutine gets a frame, or the
    [select] of the loop takes one of its four cases.  [mres] is the error of
    [json.Marshal], [wres] the error of the write. *)
Inductive Tick : Type :=
| TickFrame (f : Frame)
| TickMsg (wres : option error)                       (* case msg := <-sock.msgs *)
| TickEventError (mres wres : option error)           (* case ee := <-eventErrors *)
| TickInternalError (mres wres : option error)        (* case err := <-internalErrors *)
| TickDone.                                           (* case <-ctx.Done() *)

(** The value that the loop receives from [eventErrors], when one is ready:
    the one the goroutine is sending, or the zero value once the channel is
    closed. *)
Definition recvEventError (rd : Reader) : option ErrorEvent :=
  match rd with
  | AtSendEventError ee _ => Some ee
  | Finished => Some {| Source := {| T := ""; ID := 0; Data := PNull |}; Err := None |}
  | _ => None
  end.

(** The value that the loop receives from [internalErrors], when one is
    ready; a closed channel yields nil. *)
Definition recvInternalError (rd : Reader) : option (option error) :=
  match rd with
  | AtSendReadErr err => Some (Some err)
  | AtSendUnmarshalErr err => Some (Some err)
  | AtSendRenderErr err _ => Some (Some err)
  | AtSendAckErr err => Some (Some err)
  | Finished => Some None
  | _ => None
  end.

(** One turn of the scheduler.  [Some res] on the right: [_serveWS] returns
    [res].  A tick whose case is not ready changes nothing. *)
Definition loopStep (h : HTTPHandler) (ctx : Context) (t : Tick) (c : Conn)
  : Conn * option (option error) :=
  match t with
  | TickFrame f =>
      match cReader c with
      | AtRead => (readerFrame h ctx f c, None)
      | _ => (c, None)
      end
  | TickMsg wres =>
      match msgs (cSock c) with
      | [] => (c, None)
      | msg :: rest =>
          let c := setSock (setMsgs rest (cSock c)) c in
          match writeTimeout 5 msg wres (cWorld c) with
          | (w, Some err) =>
              (setWorld w c, Some (Some (Errorf "writing to socket error" err)))
          | (w, None) => (setWorld w c, None)
          end
      end
  | TickEventError mres wres =>
      match recvEventError (cReader c) with
      | None => (c, None)
      | Some ee =>
          let c := readerResume h ctx c in
          match mres with
          | Some err => (c, Some (Some (Errorf "writing to socket error" err)))
          | None =>
              match writeTimeout 5
                      {| T := EventError; ID := 0; Data := marshalErrorEvent ee |}
                      wres (cWorld c) with
              | (w, Some err) =>
                  (setWorld w c, Some (Some (Errorf "writing to socket error" err)))
              | (w, None) => (setWorld w c, None)
              end
          end
      end
  | TickInternalError mres wres =>
      match recvInternalError (cReader c) with
      | None => (c, None)
      | Some None => (c, None)
      | Some (Some err) =>
          let c := readerResume h ctx c in
          match mres with
          | Some err => (c, Some (Some (Errorf "writing to socket error" err)))
          | None =>
              match writeTimeout 5
                      {| T := EventError; ID := 0; Data := PErrorText err |}
                      wres (cWorld c) with
              | (w, Some err) =>
                  (setWorld w c, Some (Some (Errorf "writing to socket error" err)))
              | (w, None) =>
                  (* the [err] in scope here is the nil error of json.Marshal *)
                  (setWorld w c, Some (Some (fmt_Errorf "internal error" mres)))
              end
          end
      end
  | TickDone => (c, Some None)
  end.

(** The [for { select { ... } }] of [_serveWS] under a schedule; [None] on
    the right: the loop has not returned when the schedule ends. *)
Fixpoint loop (h : HTTPHandler) (ctx : Context) (ticks : list Tick) (c : Conn)
  : Conn * option (option error) :=
  match ticks with
  | [] => (c, None)
  | t :: rest =>
      match loopStep h ctx t c with
      | (c', Some res) => (c', Some res)
      | (c', None) => loop h ctx rest c'
      end
  end.

(** [_serveWS] after the registration of the socket: mount, params and
    render, then the loop.  The goroutine is started before the mount; its
    first frame is taken to arrive once the first render is done. *)
Definition connect (h : HTTPHandler) (ctx : Context) (r : Request) (sock : Socket)
  (ticks : list Tick) (w : World) : Conn * option (option error) :=
  let c := {| cWorld := w; cSock := sock; cReader := AtRead |} in
  match getMount (base h) ctx sock with
  | (_, Some err) => (c, Some (Some (Errorf "socket mount error" err)))
  | (data, None) =>
      let sock := Assign data sock in
      match runParams (getParams (base h)) ctx (NewParamsFromRequest r) sock with
      | (sock, Some err) =>
          (setSock sock c, Some (Some (Errorf "socket params error" err)))
      | (sock, None) =>
          match RenderSocket (base h) ctx sock with
          | (sock, Fail err) =>
              (setSock sock c, Some (Some (Errorf "socket render error" err)))
          | (sock, Ok render) =>
              loop h ctx ticks (setSock (UpdateRender render sock) c)
          end
      end
  end.

(** [_serveWS]: the socket is created and registered; [h.DeleteSocket(sock)]
    is deferred, so it runs when, and only when, the function returns. *)
Definition _serveWS (h : HTTPHandler) (ctx : Context) (r : Request)
  (session : Session) (sid : SocketID) (ticks : list Tick) (w : World)
  : Conn * option (option error) :=
  let sock := assignWS (NewHTTPSocket sid session true) in
  let w := AddSocket sock w in
  match connect h ctx r sock ticks w with
  | (c, Some res) => (setWorld (DeleteSocket sock (cWorld c)) c, Some res)
  | (c, None) => (c, None)
  end.

(** What the environment decides for one upgraded connection. *)
Record WsEnv := {
  acceptRes : option error;       (* the error of websocket.Accept *)
  connectRes : option error;      (* the error of the first write *)
  schedule : list Tick
}.

(** [serveWS]: the world, and the connection when its loop is still running
    at the end of the schedule. *)
Definition serveWS (h : HTTPHandler) (ctx : Context) (r : Request) (sid : SocketID)
  (env : WsEnv) (w : World) : World * option Conn :=
  match store_Get (sessionStore h) r with
  | (_, Some err) => (callError h ctx err w, None)
  | (session, None) =>
      let w := emit (EAccept (acceptRes env)) w in
      match acceptRes env with
      | Some err => (callError h ctx err w, None)
      | None =>
          (* defer c.Close(websocket.StatusInternalError, "") *)
          let w := fst (writeTimeout 5 {| T := EventConnect; ID := 0; Data := PNull |}
                          (connectRes env) w) in
          match _serveWS h ctx r session sid (schedule env) w with
          | (c, None) => (cWorld c, Some c)
          | (c, Some err) =>
              let w := cWorld c in
              let w :=
                if errors_Is err context_Canceled then w
                else if decide (websocket_CloseStatus err = StatusNormalClosure) then w
                else if decide (websocket_CloseStatus err = StatusGoingAway) then w
                else emit (ELog (LogWsClosed (websocket_CloseStatus err) err)) w in
              (emit (EWsClose StatusInternalError "") w, None)
          end
      end
  end.

(** What [ServeHTTP] did with a request. *)
Inductive Served : Type :=
| ServedNotFound
| ServedHTTP (sock : option Socket)
| ServedWS (running : option Conn).

Definition isUpgrade (r : Request) : bool :=
  existsb (fun header => bool_decide (header = "websocket"))
    (default [] (Header r !! "Upgrade")).

(** [ServeHTTP].  [ignoreFaviconRequest] is the field of that name that the
    handler reads; its declaration is not under src/. *)
Definition ServeHTTP (ignoreFaviconRequest : bool) (h : HTTPHandler) (r : Request)
  (sid : SocketID) (env : WsEnv) (w : World) : World * Served :=
  if bool_decide (Path (reqURL r) = "/favicon.ico") && ignoreFaviconRequest
  then (emit (EWriter (WriteHeader 404)) w, ServedNotFound)
  else
    let ctx := httpContext r in
    if isUpgrade r
    then let '(w, c) := serveWS h ctx r sid env w in (w, ServedWS c)
    else let '(w, s) := serveHTTP h ctx r sid w in (w, ServedHTTP s).

End Adapter.

(** *** Construction of the net/http handler *)

(** The loop of [NewHandler] in the adapter: the options are applied in
    order and the first error ends the construction. *)
Fixpoint applyConfigs (configs : list HandlerConfig) (h : BaseHandler)
  : result BaseHandler :=
  match configs with
  | [] => Ok h
  | conf :: rest =>
      match conf h with
      | (_, Some err) => Fail (Errorf "could not apply config" err)
      | (h', None) => applyConfigs rest h'
      end
  end.

(** [NewHandler] of the adapter.  [NewBaseHandler], which it calls first, is
    not under src/ and is a parameter.  The options act on the embedded base
    handler, which is the one that [NewBaseHandler] returned. *)
Definition HTTP_NewHandler
  (NewBaseHandler : list HandlerConfig -> result BaseHandler)
  (store : HTTPSessionStore) (configs : list HandlerConfig) : result HTTPHandler :=
  match NewBaseHandler configs with
  | Fail err => Fail (Errorf "could not init base handler" err)
  | Ok d =>
      match applyConfigs configs d with
      | Fail err => Fail err
      | Ok d' => Ok {| sessionStore := store; base := d' |}
      end
  end.

(** *** The cookie store *)

(** What a gorilla session holds under a key: the value that [Save] put
    there, a [Session], or anything else. *)
Inductive CookieValue : Type :=
| SessionValue (s : Session)
| OtherValue (v : any).

(** The [*sessions.CookieStore] that the cookie store wraps: [Store.Get(r,
    name)] yields the values of the named session and an error, and saving a
    session with given values yields an error. *)
Record GorillaStore := {
  gorilla_Get : Request -> string -> gmap string CookieValue * option error;
  gorilla_Save : Request -> gmap string CookieValue -> option error
}.

Record CookieStore := {
  Store : GorillaStore;
  sessionName : string
}.

(** A cookie as [Clear] sets it; [Expires] is in seconds since the epoch. *)
Record Cookie := {
  cookieName : string;
  cookieValue : string;
  cookiePath : string;
  cookieExpires : Z;
  cookieHttpOnly : bool
}.

Definition sessionCookie : string := "_ls".

Section Cookies.
(** [NewSession()], whose declaration is not under src/: the session that
    the environment creates. *)
Variable NewSession : Session.

Definition CookieStore_Get (c : CookieStore) (r : Request) : Session * option error :=
  match gorilla_Get (Store c) r (sessionName c) with
  | (_, Some err) => (NewSession, Some err)
  | (values, None) =>
      match values !! sessionCookie with
      | None => (NewSession, None)
      | Some (SessionValue sess) => (sess, None)
      | Some (OtherValue _) => (NewSession, None)
      end
  end.

(** [Save]: the error, and the values handed to the gorilla session when it
    is saved. *)
Definition CookieStore_Save (c : CookieStore) (r : Request) (session : Session)
  : option error * option (gmap string CookieValue) :=
  match gorilla_Get (Store c) r (sessionName c) with
  | (_, Some err) => (Some err, None)
  | (values, None) =>
      let values := <[sessionCookie := SessionValue session]> values in
      (gorilla_Save (Store c) r values, Some values)
  end.

Definition CookieStore_Clear (c : CookieStore) (r : Request) : Cookie * option error :=
  ({| cookieName := sessionName c; cookieValue := ""; cookiePath := "/";
      cookieExpires := 0; cookieHttpOnly := true |}, None).

(** The cookie store as the session store of a handler. *)
Definition cookieSessionStore (c : CookieStore) : HTTPSessionStore :=
  {| store_Get := CookieStore_Get c;
     store_Save := fun r session => fst (CookieStore_Save c r session);
     store_Clear := fun r => snd (CookieStore_Clear c r) |}.

End Cookies.

(** ** The page package: components *)

Abbreviation live_Socket := Socket (only parsing).
Abbreviation live_EventHandler := EventHandler (only parsing).
Abbreviation live_SelfHandler := SelfHandler (only parsing).

(** [%q] of a text that has no character to escape. *)
Definition quoted (s : string) : string :=
  String (Ascii.ascii_of_nat 34) (s +:+ String (Ascii.ascii_of_nat 34) "").

(** [fmt.Sprintf("%+v", v)] on the values of [any]. *)
Definition fmt_v (v : any) : string :=
  match v with
  | Nil => "<nil>"
  | AString s => s
  | AInt n => pretty n
  | ABool true => "true"
  | ABool false => "false"
  end.

Module page.

(** The data of a [Component[any]]: the identifier, the socket it is scoped
    to, the state and the two maps of handlers. *)
Record Data := {
  id : string;
  Socket : live_Socket;
  State : any;
  eventHandlers : gmap string live_EventHandler;
  selfHandlers : gmap string live_SelfHandler
}.

(** The three hooks of a component.  Each one receives the component and may
    change its data; [Render] yields what it wrote to the writer. *)
Definition RegisterHandler := Data -> Data * option error.
Definition MountHandler := Context -> Data -> Data * option error.
Definition RenderHandler := Data -> string * option error.

Record Component := {
  data : Data;
  Register : RegisterHandler;
  Mount : MountHandler;
  Render : RenderHandler
}.

Definition ComponentConfig := Component -> Component * option error.

Definition setData (d : Data) (c : Component) : Component :=
  {| data := d; Register := Register c; Mount := Mount c; Render := Render c |}.

Definition setState (state : any) (d : Data) : Data :=
  {| id := id d; Socket := Socket d; State := state;
     eventHandlers := eventHandlers d; selfHandlers := selfHandlers d |}.

Definition defaultRegister : RegisterHandler := fun d => (d, None).
Definition defaultMount : MountHandler := fun _ d => (d, None).
Definition defaultRender : RenderHandler := fun d => (fmt_v (State d), None).

(** configuration.go *)
Definition WithRegister (fn : RegisterHandler) : ComponentConfig :=
  fun c => ({| data := data c; Register := fn; Mount := Mount c; Render := Render c |},
            None).

Definition WithMount (fn : MountHandler) : ComponentConfig :=
  fun c => ({| data := data c; Register := Register c; Mount := fn; Render := Render c |},
            None).

Definition WithRender (fn : RenderHandler) : ComponentConfig :=
  fun c => ({| data := data c; Register := Register c; Mount := Mount c; Render := fn |},
            None).

(** The loop of [NewComponent] over its configurations. *)
Fixpoint configure (configurations : list ComponentConfig) (c : Component)
  : result Component :=
  match configurations with
  | [] => Ok c
  | conf :: rest =>
      match conf c with
      | (_, Some err) => Fail err
      | (c', None) => configure rest c'
      end
  end.

(** [NewComponent].  [Fail err] stands for the pair of the empty component
    [&Component{}] and [err].  The second component of the result is the
    component handed to [s.AttachChild], when that call is made. *)
Definition NewComponent (ID : string) (s : live_Socket)
  (configurations : list ComponentConfig) : result Component * option Component :=
  let c := {| data := {| id := ID; Socket := s; State := Nil;
                         eventHandlers := ∅; selfHandlers := ∅ |};
              Register := defaultRegister;
              Mount := defaultMount;
              Render := defaultRender |} in
  match configure configurations c with
  | Fail err => (Fail err, None)
  | Ok c' => (Ok c', Some c')
  end.

(** [Init]: [construct] is what the constructor returned; [Fail] stands for
    a nil component and the error. *)
Definition Init (ctx : Context) (construct : result Component) : result Component :=
  match construct with
  | Fail err => Fail (Errorf "could not install component on construct" err)
  | Ok comp =>
      match Register comp (data comp) with
      | (_, Some err) => Fail (Errorf "could not install component on register" err)
      | (registered, None) =>
          match Mount comp ctx registered with
          | (_, Some err) => Fail (Errorf "could not install component on mount" err)
          | (mounted, None) => Ok (setData mounted comp)
          end
      end
  end.

Definition GetState (d : Data) : any := State d.
Definition ID (d : Data) : string := id d.

(** [Event]: the name of an event scoped to the component. *)
Definition Event (d : Data) (event : string) : string := id d +:+ "--" +:+ event.

Definition HandleSelf (event : string) (handler : live_SelfHandler) (d : Data) : Data :=
  {| id := id d; Socket := Socket d; State := State d;
     eventHandlers := eventHandlers d;
     selfHandlers := <[Event d event := handler]> (<[event := handler]> (selfHandlers d)) |}.

Definition HandleEvent (event : string) (handler : live_EventHandler) (d : Data) : Data :=
  {| id := id d; Socket := Socket d; State := State d;
     eventHandlers := <[event := handler]> (eventHandlers d);
     selfHandlers := selfHandlers d |}.

(** [CallSelf]; [selfData] is the [SelfData] of the event.  The handler is
    invoked with the socket of the component, not with [s]. *)
Definition CallSelf (ctx : Context) (event : string) (s : live_Socket) (selfData : any)
  (d : Data) : Data * option error :=
  match selfHandlers d !! event with
  | None =>
      (d, Some (Errorf ("no self handler on component " +:+ quoted (id d) +:+ " for "
                          +:+ quoted event) ErrNoEventHandler))
  | Some handler =>
      match handler ctx (Socket d) selfData with
      | (_, Some err) => (d, Some err)
      | (state, None) => (setState state d, None)
      end
  end.

Definition CallEvent (ctx : Context) (event : string) (s : live_Socket) (params : Params)
  (d : Data) : Data * option error :=
  match eventHandlers d !! event with
  | None =>
      (d, Some (Errorf ("no event handler on component " +:+ quoted (id d) +:+ " for "
                          +:+ quoted event) ErrNoEventHandler))
  | Some handler =>
      match handler ctx (Socket d) params with
      | (_, Some err) => (d, Some err)
      | (state, None) => (setState state d, None)
      end
  end.

(** [String]: the rendering of the component, or the report of the error of
    its [Render] hook ([Fail err] stands for the text "template rendering
    failed: " followed by the text of [err]). *)
Definition String_ (c : Component) : result string :=
  match Render c (data c) with
  | (_, Some err) => Fail err
  | (output, None) => Ok output
  end.

End page.

(** ** Vocabulary of the statements *)

(** The handler reached when every option of [configs] has been applied, in
    order, from [h]. *)
Definition applied (configs : list HandlerConfig) (h : BaseHandler) : BaseHandler :=
  foldl (fun acc conf => fst (conf acc)) h configs.

(** Every option of [configs], applied in order from [h], returns nil. *)
Fixpoint succeedFrom (configs : list HandlerConfig) (h : BaseHandler) : Prop :=
  match configs with
  | [] => True
  | conf :: rest => snd (conf h) = None ∧ succeedFrom rest (fst (conf h))
  end.

(** The errors that the options of [configs] return, in order, when all of
    them are applied from [h]. *)
Fixpoint failures (configs : list HandlerConfig) (h : BaseHandler) : list error :=
  match configs with
  | [] => []
  | conf :: rest =>
      match snd (conf h) with
      | Some e => e :: failures rest (fst (conf h))
      | None => failures rest (fst (conf h))
      end
  end.

(** The acknowledgement of the message with identifier [id]. *)
Definition ackEvent (id : Z) : Event := {| T := EventAck; ID := id; Data := PNull |}.

(** The ways [_serveWS] returns: the error of the mount, of a params
    handler, of the first render, of a write, the internal error, and nil on
    cancellation. *)
Inductive ExitPath : option error → Prop :=
| ExitMount (e : error) : ExitPath (Some (Errorf "socket mount error" e))
| ExitParams (e : error) : ExitPath (Some (Errorf "socket params error" e))
| ExitRender (e : error) : ExitPath (Some (Errorf "socket render error" e))
| ExitWrite (e : error) : ExitPath (Some (Errorf "writing to socket error" e))
| ExitInternal : ExitPath (Some (ErrorfNil "internal error"))
| ExitCancelled : ExitPath None.

(** Socket [s'] is the socket [s] as far as its identity goes: the same
    identifier, session, connected flag and slow-consumer action. *)
Definition sameIdentity (s s' : Socket) : Prop :=
  sockID s' = sockID s ∧ sockSession s' = sockSession s
  ∧ connected s' = connected s ∧ closeSlow s' = closeSlow s.

(** The component that [NewComponent] starts from, before any
    configuration. *)
Definition componentDefaults (ID : string) (s : Socket) : page.Component :=
  {| page.data := {| page.id := ID; page.Socket := s; page.State := Nil;
                     page.eventHandlers := ∅; page.selfHandlers := ∅ |};
     page.Register := page.defaultRegister;
     page.Mount := page.defaultMount;
     page.Render := page.defaultRender |}.

(** The component reached when every configuration has been applied, in
    order, from [c]; and: every one of them returns nil. *)
Definition componentApplied (configurations : list page.ComponentConfig)
  (c : page.Component) : page.Component :=
  foldl (fun acc conf => fst (conf acc)) c configurations.

Fixpoint componentSucceedFrom (configurations : list page.ComponentConfig)
  (c : page.Component) : Prop :=
  match configurations with
  | [] => True
  | conf :: rest => snd (conf c) = None ∧ componentSucceedFrom rest (fst (conf c))
  end.

(** ** Sample inputs *)

Definition sampleRender (n : Node) : string :=
  match n with
  | TextNode s => s
  | ElementNode tag _ _ => tag
  end.

(** A small platform: pages are single text nodes, and two snapshots that
    differ are patched by replacing the root. *)
Definition samplePlatform : Platform :=
  {| maxMessageBufferSize := 16;
     html_Parse := fun s => Ok (TextNode s);
     html_Render := sampleRender;
     diffNodes := fun prev cur =>
       Ok (if decide (sampleRender prev = sampleRender cur) then []
           else [{| patchPath := []; patchOp := ReplaceSubtree cur |}]);
     Event_Params := fun _ => Ok ∅ |}.

Definition sampleSession : Session := {| sessionID := "s1"; sessionValues := ∅ |}.

Definition goodStore : HTTPSessionStore :=
  {| store_Get := fun _ => (sampleSession, None);
     store_Save := fun _ _ => None;
     store_Clear := fun _ => None |}.

Definition corruptStore : HTTPSessionStore :=
  {| store_Get := fun _ =>
       (sampleSession, Some (errorString "securecookie: the value is not valid"));
     store_Save := fun _ _ => None;
     store_Clear := fun _ => None |}.

Definition helloMount : MountHandler := fun _ _ => (AString "hello", None).

Definition textRender : RenderHandler :=
  fun _ rc =>
    match rcAssigns rc with
    | AString s => Ok s
    | _ => Ok ""
    end.

Definition shout : EventHandler := fun _ _ _ => (AString "HELLO", None).

Definition withMount : HandlerConfig := fun h => (HandleMount helloMount h, None).
Definition withRender : HandlerConfig := fun h => (HandleRender textRender h, None).
Definition withShout : HandlerConfig := fun h => (HandleEvent "shout" shout h, None).
Definition withPage : HandlerConfig := fun h => (HandleParams shout h, None).
Definition badConfig : HandlerConfig := fun h => (h, Some (errorString "boom")).

(** A stand-in for the absent [NewBaseHandler]: the defaults of handler.go. *)
Definition sampleNewBaseHandler (configs : list HandlerConfig) : result BaseHandler :=
  Ok defaultHandler.

Definition sampleHandler : HTTPHandler :=
  {| sessionStore := goodStore;
     base := fst (NewHandler [withMount; withRender; withShout]) |}.

(** The same handler without a renderer: every render fails. *)
Definition noRendererHandler : HTTPHandler :=
  {| sessionStore := goodStore;
     base := fst (NewHandler [withMount; withShout]) |}.

Definition corruptHandler : HTTPHandler :=
  {| sessionStore := corruptStore;
     base := fst (NewHandler [withMount; withRender]) |}.

Definition plainRequest : Request :=
  {| reqURL := {| Path := "/"; Query := ∅ |}; Header := ∅ |}.

Definition repairRequest : Request :=
  {| reqURL := {| Path := "/"; Query := {[ "live-repair" := ["1"] ]} |};
     Header := ∅ |}.

Definition emptyWorld : World := {| live := ∅; trace := [] |}.

Definition shoutMessage : Event := {| T := "shout"; ID := 7; Data := PRaw "{}" |}.
Definition unknownMessage : Event := {| T := "nope"; ID := 8; Data := PRaw "{}" |}.

(** A renderer that fails on every state but the mounted one. *)
Definition pickyRender : RenderHandler :=
  fun _ rc =>
    match rcAssigns rc with
    | AString "hello" => Ok "hello"
    | _ => Fail (errorString "template: no such field")
    end.

Definition withPickyRender : HandlerConfig := fun h => (HandleRender pickyRender h, None).

Definition pickyHandler : HTTPHandler :=
  {| sessionStore := goodStore;
     base := fst (NewHandler [withMount; withPickyRender; withShout]) |}.

Definition failingMount : MountHandler := fun _ _ => (Nil, Some (errorString "no database")).
Definition failingParams : EventHandler := fun _ _ _ => (Nil, Some (errorString "bad page")).

Definition mountFailsHandler : HTTPHandler :=
  {| sessionStore := goodStore;
     base := HandleMount failingMount (base sampleHandler) |}.

Definition paramsFailHandler : HTTPHandler :=
  {| sessionStore := goodStore;
     base := HandleParams failingParams (base sampleHandler) |}.

(** The socket of a connection whose first render has been done. *)
Definition mountedSocket : Socket :=
  UpdateRender (TextNode "hello")
    (Assign (AString "hello") (assignWS (NewHTTPSocket "sock-1" sampleSession true))).

Definition mountedConn : Conn :=
  {| cWorld := {| live := {[ "sock-1" ]}; trace := [] |};
     cSock := mountedSocket;
     cReader := AtRead |}.

(** A world in which another socket is live, and the connection logic run
    in it for the sample request. *)
Definition busyWorld : World := {| live := {[ "sock-0" ]}; trace := [] |}.

Definition sampleRun (h : HTTPHandler) (ticks : list Tick)
  : Conn * option (option error) :=
  _serveWS (H := samplePlatform) h (httpContext plainRequest) plainRequest
    sampleSession "sock-1" ticks busyWorld.

Definition connectEvent : Event := {| T := EventConnect; ID := 0; Data := PNull |}.

Definition helloPatch : Event :=
  {| T := EventPatch; ID := 0;
     Data := PPatches [{| patchPath := []; patchOp := ReplaceSubtree (TextNode "HELLO") |}] |}.

(** Requests for the routing of [ServeHTTP]. *)
Definition upgradeRequest : Request :=
  {| reqURL := {| Path := "/"; Query := ∅ |};
     Header := {[ "Upgrade" := ["websocket"] ]} |}.

Definition faviconRequest : Request :=
  {| reqURL := {| Path := "/favicon.ico"; Query := ∅ |};
     Header := {[ "Upgrade" := ["websocket"] ]} |}.

Definition cancelledEnv : WsEnv :=
  {| acceptRes := None; connectRes := None; schedule := [TickDone] |}.

Definition refusedEnv : WsEnv :=
  {| acceptRes := Some (errorString "websocket: bad handshake");
     connectRes := None; schedule := [] |}.

Definition outOfStock : EventHandler :=
  fun _ _ _ => (Nil, Some (errorString "out of stock")).

(** The sample handler with a "shout" handler that fails. *)
Definition failingShoutHandler : HTTPHandler :=
  {| sessionStore := goodStore;
     base := HandleEvent "shout" outOfStock (base sampleHandler) |}.

(** The peer goes away while an acknowledgement is being written. *)
Definition goingAwayEnv : WsEnv :=
  {| acceptRes := None; connectRes := None;
     schedule := [TickFrame (TextMessage (Ok unknownMessage));
                  TickMsg (Some (CloseError StatusGoingAway))] |}.

(** The world in which [serveWS] starts the connection logic of the sample
    request. *)
Definition upgradedWorld : World :=
  {| live := ∅; trace := [EAccept None; EWsWrite 5 connectEvent None] |}.

(** Cookie stores: one whose jar is empty, and one whose jar holds what a
    save of the sample session into the empty jar wrote. *)
Definition freshSession : Session := {| sessionID := "fresh"; sessionValues := ∅ |}.

Definition emptyJar : GorillaStore :=
  {| gorilla_Get := fun _ _ => (∅, None);
     gorilla_Save := fun _ _ => None |}.

Definition savedJar : GorillaStore :=
  {| gorilla_Get := fun _ _ => ({[ sessionCookie := SessionValue sampleSession ]}, None);
     gorilla_Save := fun _ _ => None |}.

Definition emptyCookieStore : CookieStore := {| Store := emptyJar; sessionName := "live" |}.
Definition savedCookieStore : CookieStore := {| Store := savedJar; sessionName := "live" |}.

(** Components. *)
Definition counterMount : page.MountHandler :=
  fun _ d => (page.setState (AInt 0) d, None).

Definition brokenConfig : page.ComponentConfig :=
  fun c => (c, Some (errorString "no template")).

Definition loudSelf : SelfHandler := fun _ _ _ => (AString "LOUD", None).

Definition cartData : page.Data :=
  {| page.id := "cart"; page.Socket := mountedSocket; page.State := AInt 1;
     page.eventHandlers := ∅; page.selfHandlers := ∅ |}.

(** * Properties *)

(** ** Construction *)

Lemma applyConfigsWarn_spec (configs : list HandlerConfig) (h : BaseHandler)
  (log : list LogEntry) :
  applyConfigsWarn configs h log =
    (applied configs h,
     log ++ map (LogWarn "could not apply config to handler") (failures configs h)).
Proof.
  revert h log.
  induction configs as [|conf rest IH]; intros h log; simpl.
  - by rewrite app_nil_r.
  - unfold applied; simpl. fold (applied rest (fst (conf h))).
    destruct (conf h) as [h' [e|]]; simpl; rewrite IH; [|done].
    by rewrite <- app_assoc.
Qed.

Lemma applyConfigs_ok (configs : list HandlerConfig) (h : BaseHandler) :
  succeedFrom configs h → applyConfigs configs h = Ok (applied configs h).
Proof.
  revert h.
  induction configs as [|conf rest IH]; intros h Hok; simpl in *; [done|].
  destruct Hok as [Hnil Hrest].
  unfold applied; simpl. fold (applied rest (fst (conf h))).
  destruct (conf h) as [h' err]; simpl in *; subst err.
  by apply IH.
Qed.

Lemma applyConfigs_first_failure (pre post : list HandlerConfig) (conf : HandlerConfig)
  (h : BaseHandler) (e : error) :
  succeedFrom pre h →
  snd (conf (applied pre h)) = Some e →
  applyConfigs (pre ++ conf :: post) h = Fail (Errorf "could not apply config" e).
Proof.
  revert h.
  induction pre as [|c pre IH]; intros h Hok Hfail; simpl in *.
  - unfold applied in Hfail; simpl in Hfail.
    destruct (conf h) as [h' err]; simpl in *; by subst err.
  - destruct Hok as [Hnil Hrest].
    unfold applied in Hfail; simpl in Hfail. fold (applied pre (fst (c h))) in Hfail.
    destruct (c h) as [h' err]; simpl in *; subst err.
    by apply IH.
Qed.

(** C10: a handler constructed with no option has a mount handler that
    returns nil state and nil error and a render handler that always fails
    with [ErrNoRenderer]; every render of a socket through such a handler
    leaves the socket as it was and fails with [ErrNoRenderer]. *)
Theorem unconfigured_handler_defaults `{Platform} :
  snd (NewHandler []) = [] ∧
  (∀ ctx s, getMount (fst (NewHandler [])) ctx s = (Nil, None)) ∧
  (∀ ctx rc, getRender (fst (NewHandler [])) ctx rc = Fail ErrNoRenderer) ∧
  (∀ ctx s, RenderSocket (fst (NewHandler [])) ctx s = (s, Fail ErrNoRenderer))
  ∧ errors_Is (Some ErrNoRenderer) ErrNoRenderer = true.
Proof. repeat split. Qed.

(** C4, as amended: the constructor of the net/http handler applies the
    options in the order given and stops at the first one that fails,
    returning an error that wraps the error of that option and no handler;
    the constructor of the base handler applies every option in the order
    given, logs a warning for each one that fails, and returns the handler. *)
Theorem options_applied_in_order
  (NewBaseHandler : list HandlerConfig → result BaseHandler)
  (store : HTTPSessionStore) (configs : list HandlerConfig) :
  NewHandler configs =
    (applied configs defaultHandler,
     map (LogWarn "could not apply config to handler") (failures configs defaultHandler))
  ∧ (∀ d, NewBaseHandler configs = Ok d →
       (succeedFrom configs d →
          HTTP_NewHandler NewBaseHandler store configs =
            Ok {| sessionStore := store; base := applied configs d |})
       ∧ (∀ pre conf post e,
            configs = pre ++ conf :: post →
            succeedFrom pre d →
            snd (conf (applied pre d)) = Some e →
            HTTP_NewHandler NewBaseHandler store configs =
              Fail (Errorf "could not apply config" e)))
  ∧ (∀ e, NewBaseHandler configs = Fail e →
       HTTP_NewHandler NewBaseHandler store configs =
         Fail (Errorf "could not init base handler" e)).
Proof.
  split; [|split].
  - unfold NewHandler. by rewrite applyConfigsWarn_spec.
  - intros d Hd. unfold HTTP_NewHandler. rewrite Hd. split.
    + intros Hok. by rewrite applyConfigs_ok.
    + intros pre conf post e -> Hok Hfail.
      by rewrite (applyConfigs_first_failure pre post conf d e).
  - intros e He. unfold HTTP_NewHandler. by rewrite He.
Qed.

Lemma options_applied_in_order_witness :
  HTTP_NewHandler sampleNewBaseHandler goodStore [withMount; withRender] =
    Ok {| sessionStore := goodStore;
          base := applied [withMount; withRender] defaultHandler |}
  ∧ HTTP_NewHandler sampleNewBaseHandler goodStore [withMount; badConfig; withRender] =
      Fail (Errorf "could not apply config" (errorString "boom"))
  ∧ HTTP_NewHandler (fun _ => Fail (errorString "no base")) goodStore [withMount] =
      Fail (Errorf "could not init base handler" (errorString "no base")).
Proof.
  split; [|split].
  - apply (options_applied_in_order sampleNewBaseHandler goodStore
             [withMount; withRender]).
    + reflexivity.
    + simpl. auto.
  - apply (proj2 (proj1 (proj2 (options_applied_in_order sampleNewBaseHandler goodStore
             [withMount; badConfig; withRender])) defaultHandler eq_refl)
             [withMount] badConfig [withRender] (errorString "boom")).
    + reflexivity.
    + simpl. auto.
    + reflexivity.
  - apply (options_applied_in_order (fun _ => Fail (errorString "no base")) goodStore
             [withMount]).
    reflexivity.
Defined.

(** C4, as stated, fails on the constructor of the base handler: the first
    option fails, and yet a handler is returned, with the option that comes
    after the failure applied to it and the failure only logged. *)
Lemma base_constructor_does_not_abort :
  snd (badConfig defaultHandler) = Some (errorString "boom")
  ∧ NewHandler [badConfig; withPage] =
      (HandleParams shout defaultHandler,
       [LogWarn "could not apply config to handler" (errorString "boom")]).
Proof. split; reflexivity. Qed.

(** ** The stateless path *)

Lemma runParams_frame (phs : list EventHandler) (ctx : Context) (params : Params)
  (sock : Socket) :
  let s' := fst (runParams phs ctx params sock) in
  sockID s' = sockID sock ∧ connected s' = connected sock
  ∧ latestRender s' = latestRender sock ∧ msgs s' = msgs sock.
Proof.
  revert sock.
  induction phs as [|ph rest IH]; intros sock; simpl; [done|].
  destruct (ph ctx sock params) as [data [err|]]; simpl; [done|].
  apply (IH (Assign data sock)).
Qed.

(** On first paint the render leaves the socket as it was: nothing is
    diffed and nothing is queued. *)
Lemma RenderSocket_first_paint `{Platform} (h : BaseHandler) (ctx : Context)
  (s : Socket) :
  latestRender s = None → fst (RenderSocket h ctx s) = s.
Proof.
  intros Hnone. unfold RenderSocket.
  destruct (getRender h ctx _) as [output|err]; simpl; [|done].
  destruct (html_Parse output) as [render|err]; simpl; [|done].
  by rewrite Hnone.
Qed.

(** C2: on the stateless path, when the session store fails to return the
    session and the request carries no repair marker (the query has no
    non-empty live-repair value, in particular no live-repair key), the
    session is cleared and exactly one redirect is issued, to the same URL
    with the marker set; when the marker is present the Error handler is
    invoked with the session-corruption error and nothing is redirected.
    The request that the redirect leads to carries the marker, so a second
    failure on it ends in the Error handler. *)
Theorem corrupted_session_repaired_once `{Platform} (h : HTTPHandler) (ctx : Context)
  (r : Request) (sid : SocketID) (w : World) (session : Session) (err : error) :
  store_Get (sessionStore h) r = (session, Some err) →
  let target :=
    {| Path := Path (reqURL r);
       Query := Values_Set (Query (reqURL r)) "live-repair" "1" |} in
  (Query (reqURL r) !! "live-repair" = None →
     Values_Get (Query (reqURL r)) "live-repair" = "")
  ∧ (Values_Get (Query (reqURL r)) "live-repair" = "" →
       serveHTTP h ctx r sid w =
         ({| live := live w;
             trace := trace w ++
               [ELog (LogError (Errorf "session corrupted trying to repair" err));
                EClear;
                ERedirect target StatusTemporaryRedirect] |}, None))
  ∧ (Values_Get (Query (reqURL r)) "live-repair" ≠ "" →
       serveHTTP h ctx r sid w =
         ({| live := live w;
             trace := trace w ++
               [EError (Errorf "session corrupted" err)
                  (getError (base h) ctx (Errorf "session corrupted" err))] |}, None))
  ∧ (∀ ctx' sid' w' session' err',
       store_Get (sessionStore h) {| reqURL := target; Header := Header r |}
         = (session', Some err') →
       serveHTTP h ctx' {| reqURL := target; Header := Header r |} sid' w' =
         ({| live := live w';
             trace := trace w' ++
               [EError (Errorf "session corrupted" err')
                  (getError (base h) ctx' (Errorf "session corrupted" err'))] |}, None)).
Proof.
  intros Hget target. repeat split.
  - intros Habsent. unfold Values_Get. by rewrite Habsent.
  - intros Hempty. unfold serveHTTP. rewrite Hget.
    case_decide as Hmarker; [done|].
    unfold emit; simpl. by rewrite <- !app_assoc.
  - intros Hmarker. unfold serveHTTP. rewrite Hget.
    by case_decide.
  - intros ctx' sid' w' session' err' Hget'. unfold serveHTTP. rewrite Hget'.
    case_decide as Hmarker; [done|].
    unfold target, Values_Get, Values_Set in Hmarker; cbn [Query reqURL] in Hmarker.
    by rewrite lookup_insert_eq in Hmarker.
Qed.

Lemma corrupted_session_repaired_once_witness :
  serveHTTP (H := samplePlatform) corruptHandler (httpContext plainRequest)
      plainRequest "sock-1" emptyWorld =
    ({| live := ∅;
        trace :=
          [ELog (LogError (Errorf "session corrupted trying to repair"
                   (errorString "securecookie: the value is not valid")));
           EClear;
           ERedirect (reqURL repairRequest) StatusTemporaryRedirect] |}, None)
  ∧ serveHTTP (H := samplePlatform) corruptHandler (httpContext repairRequest)
      repairRequest "sock-2" emptyWorld =
    ({| live := ∅;
        trace :=
          [EError (Errorf "session corrupted"
                     (errorString "securecookie: the value is not valid"))
             [WriteHeader 500;
              WriteBytes (ErrorText (Errorf "session corrupted"
                (errorString "securecookie: the value is not valid")))]] |}, None)
  ∧ Values_Get (Query (reqURL plainRequest)) "live-repair" = ""
  ∧ serveHTTP (H := samplePlatform) corruptHandler (httpContext plainRequest)
      {| reqURL :=
           {| Path := Path (reqURL plainRequest);
              Query := Values_Set (Query (reqURL plainRequest)) "live-repair" "1" |};
         Header := Header plainRequest |} "sock-3" emptyWorld =
    ({| live := ∅;
        trace :=
          [EError (Errorf "session corrupted"
                     (errorString "securecookie: the value is not valid"))
             [WriteHeader 500;
              WriteBytes (ErrorText (Errorf "session corrupted"
                (errorString "securecookie: the value is not valid")))]] |}, None).
Proof.
  pose proof (corrupted_session_repaired_once (H := samplePlatform) corruptHandler
                (httpContext plainRequest) plainRequest "sock-1" emptyWorld sampleSession
                (errorString "securecookie: the value is not valid") eq_refl)
    as (Habsent & Hrepair & _ & Hagain).
  pose proof (corrupted_session_repaired_once (H := samplePlatform) corruptHandler
                (httpContext repairRequest) repairRequest "sock-2" emptyWorld
                sampleSession (errorString "securecookie: the value is not valid")
                eq_refl)
    as (_ & _ & Hfatal & _).
  split; [|split; [|split]].
  - apply Hrepair. reflexivity.
  - apply Hfatal. vm_compute. discriminate.
  - apply Habsent. reflexivity.
  - apply (Hagain (httpContext plainRequest) "sock-3" emptyWorld sampleSession
             (errorString "securecookie: the value is not valid")).
    reflexivity.
Defined.

(** C9: on the stateless path the live set of the handler is left as it
    was, the trace of the world only grows, and the socket that mount, the
    params handlers and the render worked on is the disconnected socket
    created for this request. *)
Theorem stateless_path_registers_nothing `{Platform} (h : HTTPHandler) (ctx : Context)
  (r : Request) (sid : SocketID) (w : World) :
  live (fst (serveHTTP h ctx r sid w)) = live w
  ∧ (∃ done, trace (fst (serveHTTP h ctx r sid w)) = trace w ++ done)
  ∧ (∀ s, snd (serveHTTP h ctx r sid w) = Some s →
       sockID s = sid ∧ connected s = false ∧ msgs s = []).
Proof.
  unfold serveHTTP.
  destruct (store_Get (sessionStore h) r) as [session [err|]].
  { case_decide; simpl; (split; [done|split; [|done]]);
      rewrite <- ?app_assoc; by eexists. }
  cbv zeta.
  destruct (getMount (base h) ctx _) as [data [err|]].
  { simpl. split; [done|split; [by eexists|]]. by intros s [= <-]. }
  pose proof (runParams_frame (getParams (base h)) ctx (NewParamsFromRequest r)
                (Assign data (NewHTTPSocket sid session false))) as Hparams.
  destruct (runParams _ ctx _ _) as [s1 perr]; simpl in Hparams.
  destruct Hparams as (Hid1 & Hconn1 & Hrender1 & Hmsgs1).
  destruct perr as [err|].
  { simpl. split; [done|split; [by eexists|]]. by intros s [= <-]. }
  pose proof (RenderSocket_first_paint (base h) ctx s1 Hrender1) as Hfirst.
  destruct (RenderSocket (base h) ctx s1) as [s2 [render|err]]; simpl in Hfirst; subst s2.
  - destruct (store_Save (sessionStore h) r session) as [err|]; simpl;
      (split; [done|split; [rewrite <- ?app_assoc; by eexists|]]);
      by intros s [= <-].
  - simpl. split; [done|split; [by eexists|]]. by intros s [= <-].
Qed.

Lemma stateless_path_registers_nothing_witness :
  snd (serveHTTP (H := samplePlatform) sampleHandler (httpContext plainRequest)
         plainRequest "sock-1" busyWorld)
    = Some (UpdateRender (TextNode "hello")
              (Assign (AString "hello") (NewHTTPSocket "sock-1" sampleSession false)))
  ∧ live (fst (serveHTTP (H := samplePlatform) sampleHandler
                 (httpContext plainRequest) plainRequest "sock-1"
                 busyWorld)) = {[ "sock-0" ]}
  ∧ sockID (UpdateRender (TextNode "hello")
              (Assign (AString "hello") (NewHTTPSocket "sock-1" sampleSession false)))
      = "sock-1".
Proof.
  pose proof (stateless_path_registers_nothing (H := samplePlatform) sampleHandler
                (httpContext plainRequest) plainRequest "sock-1"
                busyWorld) as (Hlive & _ & Hsock).
  split; [reflexivity|]. split; [exact Hlive|].
  exact (proj1 (Hsock _ eq_refl)).
Defined.

(** C8: with no previous snapshot the diff step is skipped and the result is
    the direct serialization of the rendered tree.  [Diff] of an absent
    previous tree and [tree] is the full tree [html_Render tree]; on the
    stateless path the socket has no snapshot when it is rendered, the render
    queues nothing, and the body written to the response is that
    serialization. *)
Theorem first_paint_is_full_tree `{Platform} (h : HTTPHandler) (ctx : Context)
  (r : Request) (sid : SocketID) (w : World) (session : Session) (data : any)
  (s1 s2 : Socket) (tree : Node) :
  store_Get (sessionStore h) r = (session, None) →
  getMount (base h) ctx (NewHTTPSocket sid session false) = (data, None) →
  runParams (getParams (base h)) ctx (NewParamsFromRequest r)
    (Assign data (NewHTTPSocket sid session false)) = (s1, None) →
  RenderSocket (base h) ctx s1 = (s2, Ok tree) →
  store_Save (sessionStore h) r session = None →
  (∀ current, Diff None current = Ok (FullTree (html_Render current)))
  ∧ latestRender s1 = None
  ∧ Diff (latestRender s1) tree = Ok (FullTree (html_Render tree))
  ∧ s2 = s1
  ∧ serveHTTP h ctx r sid w =
      ({| live := live w;
          trace := trace w ++
            [ESave session;
             EWriter (WriteHeader 200);
             EWriter (WriteBytes (Html (html_Render tree)))] |},
       Some (UpdateRender tree s1)).
Proof.
  intros Hget Hmount Hparams Hrender Hsave.
  assert (latestRender s1 = None) as Hnone.
  { pose proof (runParams_frame (getParams (base h)) ctx (NewParamsFromRequest r)
                  (Assign data (NewHTTPSocket sid session false))) as Hframe.
    rewrite Hparams in Hframe. simpl in Hframe. tauto. }
  assert (s2 = s1) as ->.
  { pose proof (RenderSocket_first_paint (base h) ctx s1 Hnone) as Hfirst.
    by rewrite Hrender in Hfirst. }
  repeat split; [done|by rewrite Hnone|].
  unfold serveHTTP. rewrite Hget. cbv zeta. rewrite Hmount, Hparams, Hrender, Hsave.
  unfold emit; simpl. by rewrite <- !app_assoc.
Qed.

Lemma first_paint_is_full_tree_witness :
  serveHTTP (H := samplePlatform) sampleHandler (httpContext plainRequest)
      plainRequest "sock-1" emptyWorld =
    ({| live := ∅;
        trace := [ESave sampleSession;
                  EWriter (WriteHeader 200);
                  EWriter (WriteBytes (Html "hello"))] |},
     Some (UpdateRender (TextNode "hello")
             (Assign (AString "hello") (NewHTTPSocket "sock-1" sampleSession false)))).
Proof.
  apply (first_paint_is_full_tree (H := samplePlatform) sampleHandler
           (httpContext plainRequest) plainRequest "sock-1" emptyWorld sampleSession
           (AString "hello")
           (Assign (AString "hello") (NewHTTPSocket "sock-1" sampleSession false))
           (Assign (AString "hello") (NewHTTPSocket "sock-1" sampleSession false))
           (TextNode "hello")); reflexivity.
Defined.

(** ** The websocket connection *)

Lemma readerAck_world `{Platform} (m : Event) (c : Conn) :
  cWorld (readerAck m c) = cWorld c.
Proof. unfold readerAck. by destruct (Send _ _ _ _) as [s [err|]]. Qed.

Lemma readerRender_world `{Platform} (h : HTTPHandler) (ctx : Context) (m : Event)
  (c : Conn) :
  cWorld (readerRender h ctx m c) = cWorld c.
Proof.
  unfold readerRender.
  destruct (RenderSocket _ _ _) as [s [render|err]]; [|done].
  by rewrite readerAck_world.
Qed.

Lemma readerFrame_live `{Platform} (h : HTTPHandler) (ctx : Context) (f : Frame)
  (c : Conn) :
  live (cWorld (readerFrame h ctx f c)) = live (cWorld c).
Proof.
  destruct f as [err|[m|err]|]; simpl; try done.
  unfold readerDispatch.
  destruct (dispatch h ctx m (cSock c)) as [s [err|]].
  - destruct (errors_Is _ _); [|done]. by rewrite readerRender_world.
  - by rewrite readerRender_world.
Qed.

Lemma readerResume_world `{Platform} (h : HTTPHandler) (ctx : Context) (c : Conn) :
  cWorld (readerResume h ctx c) = cWorld c.
Proof.
  unfold readerResume.
  destruct (cReader c); try done.
  - apply readerRender_world.
  - apply readerAck_world.
Qed.

Lemma loopStep_live `{Platform} (h : HTTPHandler) (ctx : Context) (t : Tick)
  (c : Conn) :
  live (cWorld (fst (loopStep h ctx t c))) = live (cWorld c).
Proof.
  destruct t as [f|wres|mres wres|mres wres|]; simpl.
  - destruct (cReader c); try done. apply readerFrame_live.
  - destruct (msgs (cSock c)); [done|]. by destruct wres.
  - destruct (recvEventError (cReader c)); [|done].
    destruct mres; simpl; [by rewrite readerResume_world|].
    destruct wres; simpl; by rewrite readerResume_world.
  - destruct (recvInternalError (cReader c)) as [[err|]|]; try done.
    destruct mres; simpl; [by rewrite readerResume_world|].
    destruct wres; simpl; by rewrite readerResume_world.
  - done.
Qed.

Lemma loopStep_exit `{Platform} (h : HTTPHandler) (ctx : Context) (t : Tick)
  (c : Conn) (res : option error) :
  snd (loopStep h ctx t c) = Some res → ExitPath res.
Proof.
  destruct t as [f|wres|mres wres|mres wres|]; simpl.
  - by destruct (cReader c).
  - destruct (msgs (cSock c)); [done|].
    destruct wres; simpl; [|done]. intros [= <-]. constructor.
  - destruct (recvEventError (cReader c)); [|done].
    destruct mres; simpl; [intros [= <-]; constructor|].
    destruct wres; simpl; [|done]. intros [= <-]. constructor.
  - destruct (recvInternalError (cReader c)) as [[err|]|]; try done.
    destruct mres; simpl; [intros [= <-]; constructor|].
    destruct wres; simpl; intros [= <-]; constructor.
  - intros [= <-]. constructor.
Qed.

Lemma loop_live `{Platform} (h : HTTPHandler) (ctx : Context) (ticks : list Tick)
  (c : Conn) :
  live (cWorld (fst (loop h ctx ticks c))) = live (cWorld c).
Proof.
  revert c.
  induction ticks as [|t rest IH]; intros c; simpl; [done|].
  pose proof (loopStep_live h ctx t c) as Hstep.
  destruct (loopStep h ctx t c) as [c' [res|]]; simpl in *; [done|].
  by rewrite IH.
Qed.

Lemma loop_exit `{Platform} (h : HTTPHandler) (ctx : Context) (ticks : list Tick)
  (c : Conn) (res : option error) :
  snd (loop h ctx ticks c) = Some res → ExitPath res.
Proof.
  revert c.
  induction ticks as [|t rest IH]; intros c; simpl; [done|].
  pose proof (loopStep_exit h ctx t c) as Hstep.
  destruct (loopStep h ctx t c) as [c' [r|]]; simpl in *.
  - intros [= <-]. by apply Hstep.
  - apply IH.
Qed.

Lemma connect_live `{Platform} (h : HTTPHandler) (ctx : Context) (r : Request)
  (sock : Socket) (ticks : list Tick) (w : World) :
  live (cWorld (fst (connect h ctx r sock ticks w))) = live w.
Proof.
  unfold connect.
  destruct (getMount (base h) ctx sock) as [data [err|]]; [done|].
  destruct (runParams _ _ _ _) as [s1 [err|]]; [done|].
  destruct (RenderSocket _ _ _) as [s2 [render|err]]; [|done].
  by rewrite loop_live.
Qed.

Lemma connect_exit `{Platform} (h : HTTPHandler) (ctx : Context) (r : Request)
  (sock : Socket) (ticks : list Tick) (w : World) (res : option error) :
  snd (connect h ctx r sock ticks w) = Some res → ExitPath res.
Proof.
  unfold connect.
  destruct (getMount (base h) ctx sock) as [data [err|]];
    [simpl; intros [= <-]; constructor|].
  destruct (runParams _ _ _ _) as [s1 [err|]];
    [simpl; intros [= <-]; constructor|].
  destruct (RenderSocket _ _ _) as [s2 [render|err]];
    [|simpl; intros [= <-]; constructor].
  apply loop_exit.
Qed.

(** C3: when the connection logic returns, on whichever exit path (mount
    error, params error, render error, write error, internal error or
    cancellation), the socket that it registered is no longer in the live
    set, and the rest of the live set is as it was; as long as the
    connection logic has not returned the socket is registered. *)
Theorem socket_deregistered_on_return `{Platform} (h : HTTPHandler) (ctx : Context)
  (r : Request) (session : Session) (sid : SocketID) (ticks : list Tick) (w : World)
  (c : Conn) :
  (∀ res, _serveWS h ctx r session sid ticks w = (c, Some res) →
     ExitPath res ∧ (sid ∉ live (cWorld c)) ∧ live (cWorld c) = live w ∖ {[sid]})
  ∧ (_serveWS h ctx r session sid ticks w = (c, None) → sid ∈ live (cWorld c)).
Proof.
  unfold _serveWS. cbv zeta.
  pose proof (connect_live h ctx r (assignWS (NewHTTPSocket sid session true)) ticks
                (AddSocket (assignWS (NewHTTPSocket sid session true)) w)) as Hlive.
  pose proof (connect_exit h ctx r (assignWS (NewHTTPSocket sid session true)) ticks
                (AddSocket (assignWS (NewHTTPSocket sid session true)) w)) as Hexit.
  destruct (connect h ctx r _ ticks _) as [c' [res'|]]; simpl in *.
  - split; [|done]. intros res [= <- <-]. simpl. rewrite Hlive.
    split; [by apply Hexit|]. clear. split.
    + apply not_elem_of_difference. right. by apply elem_of_singleton.
    + apply set_eq. intros x.
      rewrite !elem_of_difference, elem_of_union, elem_of_singleton. tauto.
  - split; [done|]. intros [= <-]. rewrite Hlive.
    apply elem_of_union_l. by apply elem_of_singleton.
Qed.

Lemma socket_deregistered_on_return_witness :
  ("sock-1" ∉ live (cWorld (fst (sampleRun mountFailsHandler []))))
  ∧ ("sock-1" ∉ live (cWorld (fst (sampleRun paramsFailHandler []))))
  ∧ ("sock-1" ∉ live (cWorld (fst (sampleRun noRendererHandler []))))
  ∧ ("sock-1" ∉ live (cWorld (fst (sampleRun sampleHandler
        [TickFrame (TextMessage (Ok shoutMessage));
         TickMsg (Some (errorString "broken pipe"))]))))
  ∧ ("sock-1" ∉ live (cWorld (fst (sampleRun sampleHandler
        [TickFrame (ReadFailed (CloseError 1000)); TickInternalError None None]))))
  ∧ ("sock-1" ∉ live (cWorld (fst (sampleRun sampleHandler [TickDone]))))
  ∧ ("sock-1" ∈ live (cWorld (fst (sampleRun sampleHandler [])))).
Proof.
  unfold sampleRun.
  repeat apply conj.
  - apply (proj1 (socket_deregistered_on_return (H := samplePlatform) mountFailsHandler
             (httpContext plainRequest) plainRequest sampleSession "sock-1" []
             busyWorld _)
             (Some (Errorf "socket mount error" (errorString "no database")))).
    reflexivity.
  - apply (proj1 (socket_deregistered_on_return (H := samplePlatform) paramsFailHandler
             (httpContext plainRequest) plainRequest sampleSession "sock-1" []
             busyWorld _)
             (Some (Errorf "socket params error" (errorString "bad page")))).
    reflexivity.
  - apply (proj1 (socket_deregistered_on_return (H := samplePlatform) noRendererHandler
             (httpContext plainRequest) plainRequest sampleSession "sock-1" []
             busyWorld _)
             (Some (Errorf "socket render error" ErrNoRenderer))).
    reflexivity.
  - apply (proj1 (socket_deregistered_on_return (H := samplePlatform) sampleHandler
             (httpContext plainRequest) plainRequest sampleSession "sock-1"
             [TickFrame (TextMessage (Ok shoutMessage));
              TickMsg (Some (errorString "broken pipe"))] busyWorld _)
             (Some (Errorf "writing to socket error" (errorString "broken pipe")))).
    reflexivity.
  - apply (proj1 (socket_deregistered_on_return (H := samplePlatform) sampleHandler
             (httpContext plainRequest) plainRequest sampleSession "sock-1"
             [TickFrame (ReadFailed (CloseError 1000)); TickInternalError None None]
             busyWorld _)
             (Some (ErrorfNil "internal error"))).
    reflexivity.
  - apply (proj1 (socket_deregistered_on_return (H := samplePlatform) sampleHandler
             (httpContext plainRequest) plainRequest sampleSession "sock-1" [TickDone]
             busyWorld _) None).
    reflexivity.
  - apply (proj2 (socket_deregistered_on_return (H := samplePlatform) sampleHandler
             (httpContext plainRequest) plainRequest sampleSession "sock-1" []
             busyWorld _)).
    reflexivity.
Defined.

Lemma dispatch_frame `{Platform} (h : HTTPHandler) (ctx : Context) (m : Event)
  (s : Socket) :
  let s' := fst (dispatch h ctx m s) in
  latestRender s' = latestRender s ∧ msgs s' = msgs s.
Proof.
  unfold dispatch. case_decide.
  - unfold CallParams. destruct (Event_Params m) as [params|err]; [|done].
    pose proof (runParams_frame (getParams (base h)) ctx params s) as Hframe.
    simpl in Hframe. tauto.
  - unfold CallEvent. destruct (getEvent (base h) (T m)) as [handler|err]; [|done].
    destruct (Event_Params m) as [params|err]; [|done].
    by destruct (handler ctx s params) as [data [err|]].
Qed.

(** A render queues at most the patch event, and nothing when it fails. *)
Lemma RenderSocket_msgs `{Platform} (h : BaseHandler) (ctx : Context) (s : Socket) :
  (∃ patches, msgs (fst (RenderSocket h ctx s)) = msgs s ++ patches
              ∧ Forall (fun e => T e = EventPatch) patches)
  ∧ (∀ err, snd (RenderSocket h ctx s) = Fail err → fst (RenderSocket h ctx s) = s).
Proof.
  unfold RenderSocket.
  destruct (getRender h ctx _) as [output|err];
    [|split; [exists []; by rewrite app_nil_r|done]].
  destruct (html_Parse output) as [render|err];
    [|split; [exists []; by rewrite app_nil_r|done]].
  destruct (Diff (latestRender s) render) as [[doc|[|p patches]]|err]; simpl;
    try (split; [exists []; by rewrite app_nil_r|done]).
  split; [|done].
  unfold Send; simpl. case_decide; simpl.
  - eexists. split; [done|]. by repeat constructor.
  - exists []. by rewrite app_nil_r.
Qed.

Lemma readerAck_spec `{Platform} (m : Event) (c : Conn) :
  cReader (readerAck m c) = AtRead
  ∧ latestRender (cSock (readerAck m c)) = latestRender (cSock c)
  ∧ ((length (msgs (cSock c)) < maxMessageBufferSize)%nat →
       msgs (cSock (readerAck m c)) = msgs (cSock c) ++ [ackEvent (ID m)]).
Proof.
  unfold readerAck, Send; simpl.
  case_decide; simpl; by repeat split.
Qed.

(** C1, as amended: after an inbound event has been dispatched with
    success the connection renders again.  When that render succeeds the
    stored snapshot of the socket becomes the new tree, the goroutine goes
    back to reading and, when the outbound queue has room, exactly one
    acknowledgement carrying the identifier of the inbound message is queued,
    behind the patch event of the render if there is one.  When the render
    fails the socket keeps the snapshot it had and the failure is handed to
    the loop as an internal error. *)
Theorem dispatched_event_rendered_and_acknowledged `{Platform} (h : HTTPHandler)
  (ctx : Context) (m : Event) (c : Conn) (s1 s2 : Socket) :
  dispatch h ctx m (cSock c) = (s1, None) →
  (∀ tree, RenderSocket (base h) ctx s1 = (s2, Ok tree) →
     latestRender (cSock (readerFrame h ctx (TextMessage (Ok m)) c)) = Some tree
     ∧ cReader (readerFrame h ctx (TextMessage (Ok m)) c) = AtRead
     ∧ (∃ patches,
          msgs s2 = msgs (cSock c) ++ patches
          ∧ Forall (fun e => T e = EventPatch) patches
          ∧ ((length (msgs s2) < maxMessageBufferSize)%nat →
               msgs (cSock (readerFrame h ctx (TextMessage (Ok m)) c))
                 = msgs (cSock c) ++ patches ++ [ackEvent (ID m)])))
  ∧ (∀ err, RenderSocket (base h) ctx s1 = (s2, Fail err) →
       cSock (readerFrame h ctx (TextMessage (Ok m)) c) = s1
       ∧ latestRender s1 = latestRender (cSock c)
       ∧ msgs s1 = msgs (cSock c)
       ∧ cReader (readerFrame h ctx (TextMessage (Ok m)) c)
           = AtSendRenderErr (Errorf "socket handle error" err) m).
Proof.
  intros Hdispatch.
  pose proof (dispatch_frame h ctx m (cSock c)) as Hframe.
  rewrite Hdispatch in Hframe. simpl in Hframe. destruct Hframe as [Hsnap Hmsgs].
  pose proof (RenderSocket_msgs (base h) ctx s1) as [(patches & Hq & Hpatch) Hfail].
  simpl. unfold readerDispatch. rewrite Hdispatch. unfold readerRender. simpl.
  split.
  - intros tree Hrender. rewrite Hrender in *. simpl in *.
    pose proof (readerAck_spec m (setSock (UpdateRender tree s2) (setSock s1 c)))
      as (Hreader & Hkeep & Hack).
    simpl in *. split; [by rewrite Hkeep|]. split; [done|].
    exists patches. rewrite <- Hmsgs. split; [done|]. split; [done|].
    intros Hroom. rewrite (Hack Hroom), Hq. by rewrite <- app_assoc.
  - intros err Hrender. rewrite Hrender in *. simpl in *.
    by rewrite (Hfail err eq_refl).
Qed.

Lemma dispatched_event_rendered_and_acknowledged_witness :
  msgs (cSock (readerFrame (H := samplePlatform) sampleHandler
                 (httpContext plainRequest) (TextMessage (Ok shoutMessage)) mountedConn))
    = [] ++ [helloPatch] ++ [ackEvent 7]
  ∧ latestRender (cSock (readerFrame (H := samplePlatform) sampleHandler
                 (httpContext plainRequest) (TextMessage (Ok shoutMessage)) mountedConn))
    = Some (TextNode "HELLO")
  ∧ cReader (readerFrame (H := samplePlatform) pickyHandler
               (httpContext plainRequest) (TextMessage (Ok shoutMessage)) mountedConn)
    = AtSendRenderErr
        (Errorf "socket handle error" (errorString "template: no such field"))
        shoutMessage.
Proof.
  pose proof (dispatched_event_rendered_and_acknowledged (H := samplePlatform)
                sampleHandler (httpContext plainRequest) shoutMessage mountedConn
                (Assign (AString "HELLO") mountedSocket)
                (setMsgs [helloPatch] (Assign (AString "HELLO") mountedSocket))
                eq_refl) as [Hok _].
  destruct (Hok (TextNode "HELLO") eq_refl) as (Hsnap & _ & patches & Hq & _ & Hack).
  cbn in Hq. subst patches.
  pose proof (dispatched_event_rendered_and_acknowledged (H := samplePlatform)
                pickyHandler (httpContext plainRequest) shoutMessage mountedConn
                (Assign (AString "HELLO") mountedSocket)
                (Assign (AString "HELLO") mountedSocket)
                eq_refl) as [_ Hfail].
  split; [|split].
  - apply Hack. vm_compute. lia.
  - exact Hsnap.
  - exact (proj2 (proj2 (proj2 (Hfail _ eq_refl)))).
Defined.

(** C1, as stated, fails when the render that follows the dispatch fails:
    the event is dispatched to its registered handler, which returns a new
    state, and yet the stored snapshot is still the one of the previous
    state, no acknowledgement is in the queue, and the goroutine is waiting
    to hand the render error to the loop. *)
Lemma render_failure_keeps_old_snapshot :
  dispatch (H := samplePlatform) pickyHandler (httpContext plainRequest) shoutMessage
      mountedSocket
    = (Assign (AString "HELLO") mountedSocket, None)
  ∧ _serveWS (H := samplePlatform) pickyHandler (httpContext plainRequest) plainRequest
      sampleSession "sock-1" [TickFrame (TextMessage (Ok shoutMessage))] emptyWorld
    = ({| cWorld := {| live := {[ "sock-1" ]}; trace := [] |};
          cSock := Assign (AString "HELLO") mountedSocket;
          cReader :=
            AtSendRenderErr
              (Errorf "socket handle error" (errorString "template: no such field"))
              shoutMessage |}, None)
  ∧ assigns (Assign (AString "HELLO") mountedSocket) = AString "HELLO"
  ∧ latestRender (Assign (AString "HELLO") mountedSocket) = Some (TextNode "hello")
  ∧ msgs (Assign (AString "HELLO") mountedSocket) = [].
Proof. repeat split. Qed.

Lemma readerRender_reader `{Platform} (h : HTTPHandler) (ctx : Context) (m : Event)
  (c : Conn) :
  recvEventError (cReader (readerRender h ctx m c)) = None
  ∧ (∀ s2 tree, RenderSocket (base h) ctx (cSock c) = (s2, Ok tree) →
       cReader (readerRender h ctx m c) = AtRead).
Proof.
  unfold readerRender.
  destruct (RenderSocket _ _ _) as [s [render|err]]; simpl; [|done].
  pose proof (readerAck_spec m (setSock (UpdateRender render s) c)) as [Hreader _].
  rewrite Hreader. by split.
Qed.

(** C6: an inbound event whose type has no registered handler (and is not
    the params type) is dispatched into the error of [getEvent], which is
    [ErrNoEventHandler]; the goroutine logs it and goes straight on to the
    render, with the socket as it was: it sends nothing on the channel of
    error events, the turn does not make the connection logic return, and
    when the render succeeds the goroutine is back at reading with nothing
    pending on the channel of internal errors either. *)
Theorem unregistered_event_logged_and_swallowed `{Platform} (h : HTTPHandler)
  (ctx : Context) (m : Event) (c : Conn) :
  cReader c = AtRead →
  T m ≠ EventParams →
  eventHandlers (base h) !! T m = None →
  getEvent (base h) (T m)
    = Fail (Errorf ("no event handler for " +:+ T m) ErrNoEventHandler)
  ∧ dispatch h ctx m (cSock c)
      = (cSock c, Some (Errorf ("no event handler for " +:+ T m) ErrNoEventHandler))
  ∧ errors_Is (Some (Errorf ("no event handler for " +:+ T m) ErrNoEventHandler))
      ErrNoEventHandler = true
  ∧ loopStep h ctx (TickFrame (TextMessage (Ok m))) c
      = (readerRender h ctx m
           (setWorld
              (emit (ELog (LogEventError m
                 (Errorf ("no event handler for " +:+ T m) ErrNoEventHandler)))
                 (cWorld c)) c), None)
  ∧ trace (cWorld (fst (loopStep h ctx (TickFrame (TextMessage (Ok m))) c)))
      = trace (cWorld c)
          ++ [ELog (LogEventError m
                (Errorf ("no event handler for " +:+ T m) ErrNoEventHandler))]
  ∧ recvEventError (cReader (fst (loopStep h ctx (TickFrame (TextMessage (Ok m))) c)))
      = None
  ∧ (∀ s2 tree, RenderSocket (base h) ctx (cSock c) = (s2, Ok tree) →
       cReader (fst (loopStep h ctx (TickFrame (TextMessage (Ok m))) c)) = AtRead
       ∧ recvInternalError
           (cReader (fst (loopStep h ctx (TickFrame (TextMessage (Ok m))) c))) = None).
Proof.
  intros Hreader Hkind Hnone.
  assert (getEvent (base h) (T m)
            = Fail (Errorf ("no event handler for " +:+ T m) ErrNoEventHandler)) as Hget.
  { unfold getEvent. by rewrite Hnone. }
  assert (dispatch h ctx m (cSock c)
            = (cSock c, Some (Errorf ("no event handler for " +:+ T m) ErrNoEventHandler)))
    as Hdispatch.
  { unfold dispatch. case_decide; [done|]. unfold CallEvent. by rewrite Hget. }
  assert (loopStep h ctx (TickFrame (TextMessage (Ok m))) c
          = (readerRender h ctx m
               (setWorld
                  (emit (ELog (LogEventError m
                     (Errorf ("no event handler for " +:+ T m) ErrNoEventHandler)))
                     (cWorld c)) c), None)) as Hstep.
  { simpl. rewrite Hreader. simpl. unfold readerDispatch. rewrite Hdispatch.
    simpl. by destruct c. }
  rewrite Hstep. simpl.
  split; [done|]. split; [done|]. split; [done|]. split; [done|].
  split; [by rewrite readerRender_world|].
  split; [apply readerRender_reader|].
  intros s2 tree Hrender.
  destruct (readerRender_reader h ctx m
              (setWorld
                 (emit (ELog (LogEventError m
                    (Errorf ("no event handler for " +:+ T m) ErrNoEventHandler)))
                    (cWorld c)) c)) as [_ Hback].
  by rewrite (Hback s2 tree Hrender).
Qed.

Lemma unregistered_event_logged_and_swallowed_witness :
  loopStep (H := samplePlatform) sampleHandler (httpContext plainRequest)
      (TickFrame (TextMessage (Ok unknownMessage))) mountedConn
    = (readerRender (H := samplePlatform) sampleHandler (httpContext plainRequest)
         unknownMessage
         (setWorld
            (emit (ELog (LogEventError unknownMessage
               (Errorf "no event handler for nope" ErrNoEventHandler)))
               (cWorld mountedConn)) mountedConn), None)
  ∧ cReader (fst (loopStep (H := samplePlatform) sampleHandler
                    (httpContext plainRequest)
                    (TickFrame (TextMessage (Ok unknownMessage))) mountedConn)) = AtRead.
Proof.
  assert (T unknownMessage ≠ EventParams) as Hkind by (vm_compute; discriminate).
  pose proof (unregistered_event_logged_and_swallowed (H := samplePlatform)
                sampleHandler (httpContext plainRequest) unknownMessage mountedConn
                eq_refl Hkind eq_refl) as (_ & _ & _ & Hstep & _ & _ & Hback).
  split; [exact Hstep|].
  exact (proj1 (Hback mountedSocket (TextNode "hello") eq_refl)).
Defined.

(** What [serveWS] does with the result of [_serveWS]: an error that is
    [context.Canceled], a normal closure and a going-away closure are not
    logged. *)
Lemma cancelled_error_not_logged `{Platform} (h : HTTPHandler) (ctx : Context)
  (r : Request) (sid : SocketID) (env : WsEnv) (w : World) (session : Session)
  (c : Conn) (err : option error) :
  store_Get (sessionStore h) r = (session, None) →
  acceptRes env = None →
  _serveWS h ctx r session sid (schedule env)
    (fst (writeTimeout 5 {| T := EventConnect; ID := 0; Data := PNull |}
            (connectRes env) (emit (EAccept (acceptRes env)) w))) = (c, Some err) →
  errors_Is err context_Canceled = true →
  serveWS h ctx r sid env w = (emit (EWsClose StatusInternalError "") (cWorld c), None).
Proof.
  intros Hget Haccept Hrun Hcancel.
  unfold serveWS. rewrite Hget. cbv zeta. rewrite Hrun, Haccept.
  by rewrite Hcancel.
Qed.

(** C5, failing input: the first write of the connection (the connect event,
    under a timeout of five seconds) fails, and the connection logic is
    entered all the same: the socket is registered, an inbound event is
    dispatched, and its patch and acknowledgement are written while the loop
    keeps running; the connection is not closed. *)
Lemma failed_connect_write_is_ignored :
  serveWS (H := samplePlatform) sampleHandler (httpContext plainRequest) plainRequest
      "sock-1"
      {| acceptRes := None;
         connectRes := Some (errorString "context deadline exceeded");
         schedule := [TickFrame (TextMessage (Ok shoutMessage)); TickMsg None;
                      TickMsg None] |}
      emptyWorld
    = ({| live := {[ "sock-1" ]};
          trace := [EAccept None;
                    EWsWrite 5 connectEvent (Some (errorString "context deadline exceeded"));
                    EWsWrite 5 helloPatch None;
                    EWsWrite 5 (ackEvent 7) None] |},
       Some {| cWorld :=
                 {| live := {[ "sock-1" ]};
                    trace := [EAccept None;
                              EWsWrite 5 connectEvent
                                (Some (errorString "context deadline exceeded"));
                              EWsWrite 5 helloPatch None;
                              EWsWrite 5 (ackEvent 7) None] |};
               cSock := UpdateRender (TextNode "HELLO")
                          (Assign (AString "HELLO") mountedSocket);
               cReader := AtRead |}).
Proof. reflexivity. Qed.

(** C7, failing input: the context is cancelled while the loop waits; the
    loop returns nil, nil is not [context.Canceled] and carries no close
    status, and [serveWS] logs the exit as a closure with status -1. *)
Lemma cancellation_is_logged :
  snd (_serveWS (H := samplePlatform) sampleHandler (httpContext plainRequest)
         plainRequest sampleSession "sock-1" [TickDone] emptyWorld) = Some None
  ∧ errors_Is None context_Canceled = false
  ∧ websocket_CloseStatus None = (-1)%Z
  ∧ serveWS (H := samplePlatform) sampleHandler (httpContext plainRequest) plainRequest
      "sock-1" {| acceptRes := None; connectRes := None; schedule := [TickDone] |}
      emptyWorld
    = ({| live := ∅;
          trace := [EAccept None;
                    EWsWrite 5 connectEvent None;
                    ELog (LogWsClosed (-1) None);
                    EWsClose StatusInternalError ""] |}, None).
Proof. repeat split. Qed.

(** * Further properties *)

(** ** The registry of the base handler *)

(** X1: a handler registered for an event type is the one that [getEvent]
    returns for that type, replacing an earlier registration; every other
    type resolves as before, and the self handlers and the params handlers
    are untouched.  A type with no registration resolves to an error that is
    [ErrNoEventHandler]. *)
Theorem event_registration_round_trip (t t' : string) (handler : EventHandler)
  (h : BaseHandler) :
  getEvent (HandleEvent t handler h) t = Ok handler
  ∧ getEvent (HandleEvent t handler h) t'
      = (if decide (t = t') then Ok handler else getEvent h t')
  ∧ getSelf (HandleEvent t handler h) t' = getSelf h t'
  ∧ getParams (HandleEvent t handler h) = getParams h
  ∧ match getEvent h t' with
    | Ok found => eventHandlers h !! t' = Some found
    | Fail e => eventHandlers h !! t' = None
                ∧ Is e ErrNoEventHandler = true ∧ Is e ErrNoRenderer = false
    end.
Proof.
  unfold getEvent, getSelf, HandleEvent; simpl.
  split; [by rewrite lookup_insert_eq|].
  split; [|split; [done|split; [done|]]].
  - rewrite lookup_insert. by case_decide.
  - by destruct (eventHandlers h !! t').
Qed.

(** X2: the same for self handlers: [getSelf] returns the handler registered
    last for the type, other types and the event handlers are untouched, and
    a type with no registration resolves to an error that is
    [ErrNoEventHandler]. *)
Theorem self_registration_round_trip (t t' : string) (handler : SelfHandler)
  (h : BaseHandler) :
  getSelf (HandleSelf t handler h) t = Ok handler
  ∧ getSelf (HandleSelf t handler h) t'
      = (if decide (t = t') then Ok handler else getSelf h t')
  ∧ getEvent (HandleSelf t handler h) t' = getEvent h t'
  ∧ getParams (HandleSelf t handler h) = getParams h
  ∧ match getSelf h t' with
    | Ok found => selfHandlers h !! t' = Some found
    | Fail e => selfHandlers h !! t' = None
                ∧ Is e ErrNoEventHandler = true ∧ Is e ErrNoRenderer = false
    end.
Proof.
  unfold getEvent, getSelf, HandleSelf; simpl.
  split; [by rewrite lookup_insert_eq|].
  split; [|split; [done|split; [done|]]].
  - rewrite lookup_insert. by case_decide.
  - by destruct (selfHandlers h !! t').
Qed.

(** X3: params handlers accumulate: registering a list of handlers one after
    the other leaves the handlers registered before in place and adds the new
    ones behind them, in the order of registration and with repetitions
    kept; mount, render and the event handlers are untouched. *)
Theorem params_registration_order (handlers : list EventHandler) (h : BaseHandler) :
  getParams (foldl (fun acc ph => HandleParams ph acc) h handlers)
    = getParams h ++ handlers
  ∧ eventHandlers (foldl (fun acc ph => HandleParams ph acc) h handlers)
      = eventHandlers h
  ∧ getMount (foldl (fun acc ph => HandleParams ph acc) h handlers) = getMount h
  ∧ getRender (foldl (fun acc ph => HandleParams ph acc) h handlers) = getRender h.
Proof.
  revert h.
  induction handlers as [|ph rest IH]; intros h; simpl.
  - by rewrite app_nil_r.
  - destruct (IH (HandleParams ph h)) as (Hparams & Hevents & Hmount & Hrender).
    rewrite Hparams, Hevents, Hmount, Hrender. simpl.
    by rewrite <- app_assoc.
Qed.

(** ** The stateless path and the routing *)

(** X4: the params handlers run in the order of the list and the first
    error ends the loop: running a list made of two parts is running the
    first part and, when it ends without error, the second part from the
    socket that the first part left; when the first part fails, no handler
    of the second part is invoked and the socket is the one reached before
    the failing handler. *)
Theorem params_handlers_compose (pre post : list EventHandler) (ctx : Context)
  (params : Params) (sock : Socket) :
  runParams (pre ++ post) ctx params sock
    = match runParams pre ctx params sock with
      | (s, Some err) => (s, Some err)
      | (s, None) => runParams post ctx params s
      end.
Proof.
  revert sock.
  induction pre as [|ph rest IH]; intros sock; simpl; [done|].
  destruct (ph ctx sock params) as [data [err|]]; [done|].
  apply IH.
Qed.


Lemma isUpgrade_spec (r : Request) :
  isUpgrade r = true ↔ "websocket" ∈ default [] (Header r !! "Upgrade").
Proof.
  unfold isUpgrade. rewrite existsb_exists. split.
  - intros (x & Hin & Heq). apply bool_decide_eq_true in Heq. subst x.
    by apply list_elem_of_In.
  - intros Hin. exists "websocket". split; [by apply list_elem_of_In|].
    by apply bool_decide_eq_true.
Qed.

(** X6: the routing of [ServeHTTP].  A request for /favicon.ico is answered
    with 404 and nothing else when the handler ignores favicon requests,
    whatever its headers.  Otherwise the request is upgraded exactly when one
    of the values of its Upgrade header is the text websocket, and served on
    the stateless path in every other case; both paths get a context that
    carries the request and the writer. *)
Theorem ServeHTTP_routing `{Platform} (ignoreFaviconRequest : bool) (h : HTTPHandler)
  (r : Request) (sid : SocketID) (env : WsEnv) (w : World) :
  (Path (reqURL r) = "/favicon.ico" → ignoreFaviconRequest = true →
     ServeHTTP ignoreFaviconRequest h r sid env w
       = (emit (EWriter (WriteHeader 404)) w, ServedNotFound))
  ∧ (Path (reqURL r) ≠ "/favicon.ico" ∨ ignoreFaviconRequest = false →
     "websocket" ∈ default [] (Header r !! "Upgrade") →
     ServeHTTP ignoreFaviconRequest h r sid env w
       = (fst (serveWS h (httpContext r) r sid env w),
          ServedWS (snd (serveWS h (httpContext r) r sid env w))))
  ∧ (Path (reqURL r) ≠ "/favicon.ico" ∨ ignoreFaviconRequest = false →
     "websocket" ∉ default [] (Header r !! "Upgrade") →
     ServeHTTP ignoreFaviconRequest h r sid env w
       = (fst (serveHTTP h (httpContext r) r sid w),
          ServedHTTP (snd (serveHTTP h (httpContext r) r sid w)))).
Proof.
  unfold ServeHTTP. split; [|split].
  - intros Hpath ->. by rewrite bool_decide_eq_true_2.
  - intros Hnot Hup.
    assert (bool_decide (Path (reqURL r) = "/favicon.ico") && ignoreFaviconRequest
            = false) as ->.
    { destruct Hnot as [Hpath| ->]; [by rewrite bool_decide_eq_false_2|].
      by rewrite andb_false_r. }
    apply isUpgrade_spec in Hup. rewrite Hup.
    by destruct (serveWS _ _ _ _ _ _).
  - intros Hnot Hup.
    assert (bool_decide (Path (reqURL r) = "/favicon.ico") && ignoreFaviconRequest
            = false) as ->.
    { destruct Hnot as [Hpath| ->]; [by rewrite bool_decide_eq_false_2|].
      by rewrite andb_false_r. }
    destruct (isUpgrade r) eqn:Hno.
    { exfalso. apply Hup. by apply isUpgrade_spec. }
    by destruct (serveHTTP _ _ _ _ _).
Qed.

Lemma ServeHTTP_routing_witness :
  ServeHTTP (H := samplePlatform) true sampleHandler faviconRequest "sock-1"
      cancelledEnv emptyWorld
    = (emit (EWriter (WriteHeader 404)) emptyWorld, ServedNotFound)
  ∧ ServeHTTP (H := samplePlatform) false sampleHandler faviconRequest "sock-1"
      cancelledEnv emptyWorld
    = (fst (serveWS (H := samplePlatform) sampleHandler (httpContext faviconRequest)
              faviconRequest "sock-1" cancelledEnv emptyWorld),
       ServedWS (snd (serveWS (H := samplePlatform) sampleHandler
                        (httpContext faviconRequest) faviconRequest "sock-1"
                        cancelledEnv emptyWorld)))
  ∧ ServeHTTP (H := samplePlatform) true sampleHandler plainRequest "sock-1"
      cancelledEnv emptyWorld
    = (fst (serveHTTP (H := samplePlatform) sampleHandler (httpContext plainRequest)
              plainRequest "sock-1" emptyWorld),
       ServedHTTP (snd (serveHTTP (H := samplePlatform) sampleHandler
                          (httpContext plainRequest) plainRequest "sock-1"
                          emptyWorld))).
Proof.
  split; [|split].
  - apply (ServeHTTP_routing (H := samplePlatform) true sampleHandler faviconRequest
             "sock-1" cancelledEnv emptyWorld); reflexivity.
  - apply (ServeHTTP_routing (H := samplePlatform) false sampleHandler faviconRequest
             "sock-1" cancelledEnv emptyWorld).
    + by right.
    + apply list_elem_of_here.
  - apply (ServeHTTP_routing (H := samplePlatform) true sampleHandler plainRequest
             "sock-1" cancelledEnv emptyWorld).
    + left. discriminate.
    + apply not_elem_of_nil.
Defined.

(** ** The websocket path *)

(** X7: a websocket request is refused before any upgrade when the session
    cannot be read, and right after a failed upgrade: the Error handler is
    invoked once with the error as it is (no repair is tried: nothing is
    cleared or redirected), no connect event is written, nothing is closed,
    and the live set is as it was. *)
Theorem websocket_request_refused `{Platform} (h : HTTPHandler) (ctx : Context)
  (r : Request) (sid : SocketID) (env : WsEnv) (w : World) (session : Session)
  (err : error) :
  (store_Get (sessionStore h) r = (session, Some err) →
     serveWS h ctx r sid env w
       = ({| live := live w;
             trace := trace w ++ [EError err (getError (base h) ctx err)] |}, None))
  ∧ (store_Get (sessionStore h) r = (session, None) →
     acceptRes env = Some err →
     serveWS h ctx r sid env w
       = ({| live := live w;
             trace := trace w ++ [EAccept (Some err);
                                  EError err (getError (base h) ctx err)] |}, None)).
Proof.
  unfold serveWS. split.
  - intros Hget. by rewrite Hget.
  - intros Hget Haccept. rewrite Hget, Haccept.
    unfold callError, emit; simpl. by rewrite <- app_assoc.
Qed.

Lemma websocket_request_refused_witness :
  serveWS (H := samplePlatform) corruptHandler (httpContext upgradeRequest)
      upgradeRequest "sock-1" cancelledEnv busyWorld
    = ({| live := live busyWorld;
          trace := trace busyWorld ++
            [EError (errorString "securecookie: the value is not valid")
               (getError (base corruptHandler) (httpContext upgradeRequest)
                  (errorString "securecookie: the value is not valid"))] |}, None)
  ∧ serveWS (H := samplePlatform) sampleHandler (httpContext upgradeRequest)
      upgradeRequest "sock-1" refusedEnv busyWorld
    = ({| live := live busyWorld;
          trace := trace busyWorld ++
            [EAccept (Some (errorString "websocket: bad handshake"));
             EError (errorString "websocket: bad handshake")
               (getError (base sampleHandler) (httpContext upgradeRequest)
                  (errorString "websocket: bad handshake"))] |}, None).
Proof.
  split.
  - apply (websocket_request_refused (H := samplePlatform) corruptHandler
             (httpContext upgradeRequest) upgradeRequest "sock-1" cancelledEnv busyWorld
             sampleSession (errorString "securecookie: the value is not valid")).
    reflexivity.
  - apply (websocket_request_refused (H := samplePlatform) sampleHandler
             (httpContext upgradeRequest) upgradeRequest "sock-1" refusedEnv busyWorld
             sampleSession (errorString "websocket: bad handshake")); reflexivity.
Defined.

Lemma returned_connection_not_live `{Platform} (h : HTTPHandler) (ctx : Context)
  (r : Request) (session : Session) (sid : SocketID) (ticks : list Tick) (w : World)
  (c : Conn) (res : option error) :
  _serveWS h ctx r session sid ticks w = (c, Some res) → sid ∉ live (cWorld c).
Proof.
  unfold _serveWS. cbv zeta.
  destruct (connect h ctx r _ ticks _) as [c' [res'|]]; [|done].
  intros [= <- <-]. simpl.
  apply not_elem_of_difference. right. by apply elem_of_singleton.
Qed.

(** X8: when the connection logic of an upgraded connection returns,
    [serveWS] closes the connection with the internal-error status, once and
    as its last action, and the socket is out of the live set.  Before that
    it logs the result, unless the result is an error that is
    [context.Canceled] or carries the close status of a normal closure or of
    a going-away closure. *)
Theorem websocket_exit_closed_and_logged `{Platform} (h : HTTPHandler) (ctx : Context)
  (r : Request) (sid : SocketID) (env : WsEnv) (w : World) (session : Session)
  (c : Conn) (res : option error) :
  store_Get (sessionStore h) r = (session, None) →
  acceptRes env = None →
  _serveWS h ctx r session sid (schedule env)
    (fst (writeTimeout 5 {| T := EventConnect; ID := 0; Data := PNull |}
            (connectRes env) (emit (EAccept (acceptRes env)) w))) = (c, Some res) →
  serveWS h ctx r sid env w
    = ({| live := live (cWorld c);
          trace := trace (cWorld c)
            ++ (if errors_Is res context_Canceled
                   || bool_decide (websocket_CloseStatus res = StatusNormalClosure)
                   || bool_decide (websocket_CloseStatus res = StatusGoingAway)
                then []
                else [ELog (LogWsClosed (websocket_CloseStatus res) res)])
            ++ [EWsClose StatusInternalError ""] |}, None)
  ∧ sid ∉ live (cWorld c).
Proof.
  intros Hget Haccept Hrun. split.
  - unfold serveWS. rewrite Hget. cbv zeta. rewrite Hrun, Haccept.
    destruct (errors_Is res context_Canceled); simpl; [done|].
    case_decide as Hnormal.
    { by rewrite (bool_decide_eq_true_2 _ Hnormal). }
    rewrite (bool_decide_eq_false_2 _ Hnormal). simpl.
    case_decide as Haway.
    { by rewrite (bool_decide_eq_true_2 _ Haway). }
    rewrite (bool_decide_eq_false_2 _ Haway). simpl.
    unfold emit; simpl. by rewrite <- app_assoc.
  - exact (returned_connection_not_live h ctx r session sid (schedule env) _ c res Hrun).
Qed.

Lemma websocket_exit_closed_and_logged_witness :
  serveWS (H := samplePlatform) sampleHandler (httpContext upgradeRequest)
      upgradeRequest "sock-1" goingAwayEnv emptyWorld
    = ({| live := ∅;
          trace := [EAccept None;
                    EWsWrite 5 connectEvent None;
                    ELog (LogEventError unknownMessage
                            (Errorf "no event handler for nope" ErrNoEventHandler));
                    EWsWrite 5 (ackEvent 8) (Some (CloseError StatusGoingAway));
                    EWsClose StatusInternalError ""] |}, None)
  ∧ "sock-1" ∉ live (cWorld (fst (_serveWS (H := samplePlatform) sampleHandler
                                     (httpContext upgradeRequest) upgradeRequest
                                     sampleSession "sock-1" (schedule goingAwayEnv)
                                     upgradedWorld))).
Proof.
  pose proof (websocket_exit_closed_and_logged (H := samplePlatform) sampleHandler
                (httpContext upgradeRequest) upgradeRequest "sock-1" goingAwayEnv
                emptyWorld sampleSession
                (fst (_serveWS (H := samplePlatform) sampleHandler
                        (httpContext upgradeRequest) upgradeRequest sampleSession
                        "sock-1" (schedule goingAwayEnv) upgradedWorld))
                (Some (Errorf "writing to socket error" (CloseError StatusGoingAway)))
                eq_refl eq_refl eq_refl) as [Hserve Hlive].
  split; [exact Hserve|exact Hlive].
Defined.

(** X9: an internal error never reaches the caller of the connection logic:
    when the loop receives one and the error event is written, the value
    returned is an "internal error" that wraps nothing.  It is not
    [context.Canceled] and carries no close status, whatever the error
    received was (a closure by the peer included). *)
Theorem internal_error_loses_its_cause `{Platform} (h : HTTPHandler) (ctx : Context)
  (c : Conn) (err : error) :
  recvInternalError (cReader c) = Some (Some err) →
  loopStep h ctx (TickInternalError None None) c
    = (setWorld
         (emit (EWsWrite 5 {| T := EventError; ID := 0; Data := PErrorText err |} None)
            (cWorld c))
         (readerResume h ctx c),
       Some (Some (ErrorfNil "internal error")))
  ∧ errors_Is (Some (ErrorfNil "internal error")) context_Canceled = false
  ∧ websocket_CloseStatus (Some (ErrorfNil "internal error")) = (-1)%Z
  ∧ (err ≠ ErrorfNil "internal error" →
       errors_Is (Some (ErrorfNil "internal error")) err = false).
Proof.
  intros Hrecv. split; [|split; [done|split; [done|]]].
  - simpl. rewrite Hrecv. simpl. by rewrite readerResume_world.
  - intros Hne. simpl. case_decide; [by subst err|done].
Qed.

Lemma internal_error_loses_its_cause_witness :
  loopStep (H := samplePlatform) sampleHandler (httpContext upgradeRequest)
      (TickInternalError None None)
      (setReader (AtSendReadErr (CloseError StatusNormalClosure)) mountedConn)
    = (setWorld
         (emit (EWsWrite 5 {| T := EventError; ID := 0;
                              Data := PErrorText (CloseError StatusNormalClosure) |} None)
            (cWorld mountedConn))
         (setReader Finished mountedConn),
       Some (Some (ErrorfNil "internal error")))
  ∧ errors_Is (Some (ErrorfNil "internal error")) (CloseError StatusNormalClosure)
      = false.
Proof.
  pose proof (internal_error_loses_its_cause (H := samplePlatform) sampleHandler
                (httpContext upgradeRequest)
                (setReader (AtSendReadErr (CloseError StatusNormalClosure)) mountedConn)
                (CloseError StatusNormalClosure) eq_refl) as (Hstep & _ & _ & Hcause).
  split; [exact Hstep|]. apply Hcause. discriminate.
Defined.

(** X10: a read that fails and a text frame that cannot be decoded are
    fatal and nothing else happens for them: no handler is invoked, nothing
    is rendered or acknowledged, the socket and the trace are as they were.
    The loop then writes one error event carrying the text of the error and
    returns, with the error of that write when it fails. *)
Theorem broken_read_is_fatal `{Platform} (h : HTTPHandler) (ctx : Context) (c : Conn)
  (f : Frame) (err : error) (wres : option error) :
  cReader c = AtRead →
  f = ReadFailed err ∨ f = TextMessage (Fail err) →
  snd (loopStep h ctx (TickFrame f) c) = None
  ∧ cSock (fst (loopStep h ctx (TickFrame f) c)) = cSock c
  ∧ cWorld (fst (loopStep h ctx (TickFrame f) c)) = cWorld c
  ∧ snd (loopStep h ctx (TickInternalError None wres)
           (fst (loopStep h ctx (TickFrame f) c)))
      = Some (Some (match wres with
                    | Some werr => Errorf "writing to socket error" werr
                    | None => ErrorfNil "internal error"
                    end))
  ∧ cSock (fst (loopStep h ctx (TickInternalError None wres)
                  (fst (loopStep h ctx (TickFrame f) c)))) = cSock c
  ∧ trace (cWorld (fst (loopStep h ctx (TickInternalError None wres)
                          (fst (loopStep h ctx (TickFrame f) c)))))
      = trace (cWorld c)
          ++ [EWsWrite 5 {| T := EventError; ID := 0; Data := PErrorText err |} wres].
Proof.
  intros Hreader [-> | ->]; simpl; rewrite Hreader; simpl; by destruct wres.
Qed.

Lemma broken_read_is_fatal_witness :
  snd (loopStep (H := samplePlatform) sampleHandler (httpContext upgradeRequest)
         (TickInternalError None None)
         (fst (loopStep (H := samplePlatform) sampleHandler
                 (httpContext upgradeRequest)
                 (TickFrame (TextMessage (Fail (errorString "unexpected end of JSON input"))))
                 mountedConn)))
    = Some (Some (ErrorfNil "internal error"))
  ∧ cSock (fst (loopStep (H := samplePlatform) sampleHandler
                  (httpContext upgradeRequest)
                  (TickFrame (ReadFailed (errorString "EOF"))) mountedConn))
    = mountedSocket.
Proof.
  split.
  - apply (broken_read_is_fatal (H := samplePlatform) sampleHandler
             (httpContext upgradeRequest) mountedConn
             (TextMessage (Fail (errorString "unexpected end of JSON input")))
             (errorString "unexpected end of JSON input") None eq_refl).
    by right.
  - apply (broken_read_is_fatal (H := samplePlatform) sampleHandler
             (httpContext upgradeRequest) mountedConn
             (ReadFailed (errorString "EOF")) (errorString "EOF") None eq_refl).
    by left.
Defined.

(** X11: the loop writes the queued messages of the socket in the order in
    which they were queued, one per turn and each under the five second
    timeout, and removes from the queue exactly what it wrote. *)
Theorem queue_written_in_order `{Platform} (h : HTTPHandler) (ctx : Context)
  (n : nat) (c : Conn) :
  n ≤ length (msgs (cSock c)) →
  loop h ctx (replicate n (TickMsg None)) c
    = ({| cWorld :=
            {| live := live (cWorld c);
               trace := trace (cWorld c)
                 ++ map (fun msg => EWsWrite 5 msg None) (take n (msgs (cSock c))) |};
          cSock := setMsgs (drop n (msgs (cSock c))) (cSock c);
          cReader := cReader c |}, None).
Proof.
  revert c.
  induction n as [|n IH]; intros [[lv tr] s rd] Hlen; simpl in *.
  - rewrite app_nil_r. by destruct s.
  - destruct s as [sid ses conn asg lr [|msg q] cs sl]; simpl in *; [lia|].
    rewrite IH; simpl; [|lia].
    by rewrite <- app_assoc.
Qed.

Lemma queue_written_in_order_witness :
  loop (H := samplePlatform) sampleHandler (httpContext upgradeRequest)
      (replicate 2 (TickMsg None))
      (setSock (setMsgs [helloPatch; ackEvent 7; ackEvent 8] mountedSocket) mountedConn)
    = ({| cWorld :=
            {| live := {[ "sock-1" ]};
               trace := [EWsWrite 5 helloPatch None; EWsWrite 5 (ackEvent 7) None] |};
          cSock := setMsgs [ackEvent 8] mountedSocket;
          cReader := AtRead |}, None).
Proof.
  apply (queue_written_in_order (H := samplePlatform) sampleHandler
           (httpContext upgradeRequest) 2
           (setSock (setMsgs [helloPatch; ackEvent 7; ackEvent 8] mountedSocket)
              mountedConn)).
  simpl. lia.
Defined.

(** X12: an error returned by a handler, other than the missing-handler
    error, is reported to the client and is not fatal: the goroutine hands to
    the loop an error event whose source is the inbound message, the loop
    writes it as an event of type error and does not return, and the
    goroutine goes on with the render and the acknowledgement of the
    message, from the socket as the dispatch left it. *)
Theorem handler_error_reported_to_client `{Platform} (h : HTTPHandler) (ctx : Context)
  (m : Event) (c : Conn) (s1 : Socket) (err : error) :
  cReader c = AtRead →
  dispatch h ctx m (cSock c) = (s1, Some err) →
  Is err ErrNoEventHandler = false →
  loopStep h ctx (TickFrame (TextMessage (Ok m))) c
    = (setReader (AtSendEventError {| Source := m; Err := Some err |} m) (setSock s1 c),
       None)
  ∧ loopStep h ctx (TickEventError None None)
      (setReader (AtSendEventError {| Source := m; Err := Some err |} m) (setSock s1 c))
    = (setWorld
         (emit (EWsWrite 5 {| T := EventError; ID := 0;
                              Data := PErrorEvent (T m) (ID m) (Data m) (Some err) |}
                  None) (cWorld c))
         (readerRender h ctx m (setSock s1 c)),
       None).
Proof.
  intros Hreader Hdispatch Hother. split.
  - simpl. rewrite Hreader. simpl. unfold readerDispatch. rewrite Hdispatch.
    simpl. by rewrite Hother.
  - simpl. unfold readerResume; simpl.
    unfold marshalErrorEvent; simpl.
    rewrite readerRender_world. simpl.
    unfold readerRender; simpl.
    by destruct (RenderSocket (base h) ctx s1) as [s2 [render|rerr]].
Qed.

Lemma handler_error_reported_to_client_witness :
  loopStep (H := samplePlatform) failingShoutHandler (httpContext upgradeRequest)
      (TickEventError None None)
      (setReader
         (AtSendEventError
            {| Source := shoutMessage; Err := Some (errorString "out of stock") |}
            shoutMessage) (setSock mountedSocket mountedConn))
    = (setWorld
         (emit (EWsWrite 5
                  {| T := EventError; ID := 0;
                     Data := PErrorEvent "shout" 7 (PRaw "{}")
                               (Some (errorString "out of stock")) |} None)
            (cWorld mountedConn))
         (readerRender (H := samplePlatform) failingShoutHandler
            (httpContext upgradeRequest) shoutMessage
            (setSock mountedSocket mountedConn)),
       None)
  ∧ msgs (cSock (readerRender (H := samplePlatform) failingShoutHandler
                   (httpContext upgradeRequest) shoutMessage
                   (setSock mountedSocket mountedConn))) = [ackEvent 7].
Proof.
  split; [|reflexivity].
  apply (handler_error_reported_to_client (H := samplePlatform) failingShoutHandler
           (httpContext upgradeRequest) shoutMessage mountedConn mountedSocket
           (errorString "out of stock")); reflexivity.
Defined.

Lemma sameIdentity_refl (s : Socket) : sameIdentity s s.
Proof. by repeat split. Qed.

Lemma sameIdentity_trans (s1 s2 s3 : Socket) :
  sameIdentity s1 s2 → sameIdentity s2 s3 → sameIdentity s1 s3.
Proof.
  intros (Ha & Hb & Hc & Hd) (He & Hf & Hg & Hh).
  repeat split; congruence.
Qed.

Lemma Send_identity `{Platform} (event : string) (data : Payload)
  (options : list EventConfig) (s : Socket) :
  sameIdentity s (fst (Send event data options s)).
Proof.
  unfold Send.
  destruct (configureEvent options _); simpl; [|apply sameIdentity_refl].
  case_decide; by repeat split.
Qed.

Lemma RenderSocket_identity `{Platform} (h : BaseHandler) (ctx : Context) (s : Socket) :
  sameIdentity s (fst (RenderSocket h ctx s)).
Proof.
  unfold RenderSocket.
  destruct (getRender h ctx _) as [output|err]; simpl; [|apply sameIdentity_refl].
  destruct (html_Parse output) as [render|err]; simpl; [|apply sameIdentity_refl].
  destruct (Diff (latestRender s) render) as [[doc|[|p patches]]|err]; simpl;
    try apply sameIdentity_refl.
  apply Send_identity.
Qed.

Lemma runParams_identity (phs : list EventHandler) (ctx : Context) (params : Params)
  (s : Socket) :
  sameIdentity s (fst (runParams phs ctx params s)).
Proof.
  revert s.
  induction phs as [|ph rest IH]; intros s; simpl; [apply sameIdentity_refl|].
  destruct (ph ctx s params) as [data [err|]]; simpl; [apply sameIdentity_refl|].
  apply (sameIdentity_trans s (Assign data s)); [by repeat split|apply IH].
Qed.

Lemma dispatch_identity `{Platform} (h : HTTPHandler) (ctx : Context) (m : Event)
  (s : Socket) :
  sameIdentity s (fst (dispatch h ctx m s)).
Proof.
  unfold dispatch. case_decide.
  - unfold CallParams.
    destruct (Event_Params m) as [params|err]; [|apply sameIdentity_refl].
    apply runParams_identity.
  - unfold CallEvent.
    destruct (getEvent (base h) (T m)) as [handler|err]; [|apply sameIdentity_refl].
    destruct (Event_Params m) as [params|err]; [|apply sameIdentity_refl].
    destruct (handler ctx s params) as [data [err|]]; by repeat split.
Qed.

Lemma readerAck_identity `{Platform} (m : Event) (c : Conn) :
  sameIdentity (cSock c) (cSock (readerAck m c)).
Proof.
  unfold readerAck.
  pose proof (Send_identity EventAck PNull [WithID (ID m)] (cSock c)) as Hsend.
  by destruct (Send _ _ _ _) as [s [err|]].
Qed.

Lemma readerRender_identity `{Platform} (h : HTTPHandler) (ctx : Context) (m : Event)
  (c : Conn) :
  sameIdentity (cSock c) (cSock (readerRender h ctx m c)).
Proof.
  unfold readerRender.
  pose proof (RenderSocket_identity (base h) ctx (cSock c)) as Hrender.
  destruct (RenderSocket _ _ _) as [s [render|err]]; simpl in *; [|done].
  apply (sameIdentity_trans _ (UpdateRender render s)).
  - apply (sameIdentity_trans _ s); [done|by repeat split].
  - apply (readerAck_identity m (setSock (UpdateRender render s) c)).
Qed.

Lemma readerFrame_identity `{Platform} (h : HTTPHandler) (ctx : Context) (f : Frame)
  (c : Conn) :
  sameIdentity (cSock c) (cSock (readerFrame h ctx f c)).
Proof.
  destruct f as [err|[m|err]|]; simpl; try apply sameIdentity_refl.
  unfold readerDispatch.
  pose proof (dispatch_identity h ctx m (cSock c)) as Hdispatch.
  destruct (dispatch h ctx m (cSock c)) as [s [err|]]; simpl in *.
  - destruct (Is err ErrNoEventHandler); [|done].
    apply (sameIdentity_trans _ s); [done|].
    apply (readerRender_identity h ctx m
             (setWorld (emit (ELog (LogEventError m err)) (cWorld c)) (setSock s c))).
  - apply (sameIdentity_trans _ s); [done|].
    apply (readerRender_identity h ctx m (setSock s c)).
Qed.

Lemma readerResume_identity `{Platform} (h : HTTPHandler) (ctx : Context) (c : Conn) :
  sameIdentity (cSock c) (cSock (readerResume h ctx c)).
Proof.
  unfold readerResume.
  destruct (cReader c); try apply sameIdentity_refl.
  - apply readerRender_identity.
  - apply readerAck_identity.
Qed.

Lemma loopStep_identity `{Platform} (h : HTTPHandler) (ctx : Context) (t : Tick)
  (c : Conn) :
  sameIdentity (cSock c) (cSock (fst (loopStep h ctx t c))).
Proof.
  destruct t as [f|wres|mres wres|mres wres|]; simpl.
  - destruct (cReader c); try apply sameIdentity_refl. apply readerFrame_identity.
  - destruct (msgs (cSock c)); [apply sameIdentity_refl|].
    destruct wres; by repeat split.
  - destruct (recvEventError (cReader c)); [|apply sameIdentity_refl].
    destruct mres; simpl; [apply readerResume_identity|].
    destruct wres; simpl; apply readerResume_identity.
  - destruct (recvInternalError (cReader c)) as [[err|]|]; try apply sameIdentity_refl.
    destruct mres; simpl; [apply readerResume_identity|].
    destruct wres; simpl; apply readerResume_identity.
  - apply sameIdentity_refl.
Qed.

Lemma loop_identity `{Platform} (h : HTTPHandler) (ctx : Context) (ticks : list Tick)
  (c : Conn) :
  sameIdentity (cSock c) (cSock (fst (loop h ctx ticks c))).
Proof.
  revert c.
  induction ticks as [|t rest IH]; intros c; simpl; [apply sameIdentity_refl|].
  pose proof (loopStep_identity h ctx t c) as Hstep.
  destruct (loopStep h ctx t c) as [c' [res|]]; simpl in *; [done|].
  by apply (sameIdentity_trans _ (cSock c')).
Qed.

(** X13: whatever the schedule and whatever mount, the handlers and the
    render do, the socket of a websocket connection keeps the identifier and
    the session it was created with, stays connected, and keeps the
    slow-consumer action installed by [assignWS]: a close with the
    policy-violation status. *)
Theorem connection_socket_identity `{Platform} (h : HTTPHandler) (ctx : Context)
  (r : Request) (session : Session) (sid : SocketID) (ticks : list Tick) (w : World) :
  sockID (cSock (fst (_serveWS h ctx r session sid ticks w))) = sid
  ∧ sockSession (cSock (fst (_serveWS h ctx r session sid ticks w))) = session
  ∧ connected (cSock (fst (_serveWS h ctx r session sid ticks w))) = true
  ∧ closeSlow (cSock (fst (_serveWS h ctx r session sid ticks w)))
      = Some (StatusPolicyViolation, "socket too slow to keep up with messages").
Proof.
  assert (sameIdentity (assignWS (NewHTTPSocket sid session true))
            (cSock (fst (_serveWS h ctx r session sid ticks w)))) as Hsame;
    [|exact Hsame].
  unfold _serveWS. cbv zeta.
  set (sock := assignWS (NewHTTPSocket sid session true)).
  set (w' := AddSocket sock w).
  assert (sameIdentity sock (cSock (fst (connect h ctx r sock ticks w')))) as Hconnect.
  { unfold connect.
    destruct (getMount (base h) ctx sock) as [data [err|]];
      [apply sameIdentity_refl|].
    pose proof (runParams_identity (getParams (base h)) ctx (NewParamsFromRequest r)
                  (Assign data sock)) as Hparams.
    destruct (runParams _ _ _ _) as [s1 [err|]]; simpl in Hparams.
    { simpl. apply (sameIdentity_trans _ (Assign data sock)); [by repeat split|done]. }
    pose proof (RenderSocket_identity (base h) ctx s1) as Hrender.
    destruct (RenderSocket _ _ _) as [s2 [render|err]]; simpl in Hrender.
    - apply (sameIdentity_trans _ (UpdateRender render s2)).
      + apply (sameIdentity_trans _ s2); [|by repeat split].
        apply (sameIdentity_trans _ s1); [|done].
        apply (sameIdentity_trans _ (Assign data sock)); [by repeat split|done].
      + apply (loop_identity h ctx ticks
                 (setSock (UpdateRender render s2)
                    {| cWorld := w'; cSock := sock; cReader := AtRead |})).
    - simpl. apply (sameIdentity_trans _ s1); [|done].
      apply (sameIdentity_trans _ (Assign data sock)); [by repeat split|done]. }
  by destruct (connect h ctx r sock ticks w') as [c [res|]].
Qed.

(** ** The cookie store *)

(** X14: [Get] of the cookie store fails exactly when the underlying store
    fails, with the same error, and it always returns a session: the new
    session whenever it fails, and whenever the cookie holds nothing, or
    something that is not a session, under the session key.  A session other
    than the new one is returned only if it is what the cookie holds. *)
Theorem cookie_get_falls_back_to_new_session (NewSession : Session) (c : CookieStore)
  (r : Request) :
  snd (CookieStore_Get NewSession c r)
    = snd (gorilla_Get (Store c) r (sessionName c))
  ∧ (∀ err, snd (CookieStore_Get NewSession c r) = Some err →
       fst (CookieStore_Get NewSession c r) = NewSession)
  ∧ (∀ v, fst (gorilla_Get (Store c) r (sessionName c)) !! sessionCookie
            = Some (OtherValue v) →
       fst (CookieStore_Get NewSession c r) = NewSession)
  ∧ (fst (gorilla_Get (Store c) r (sessionName c)) !! sessionCookie = None →
       fst (CookieStore_Get NewSession c r) = NewSession)
  ∧ (fst (CookieStore_Get NewSession c r) ≠ NewSession →
       snd (CookieStore_Get NewSession c r) = None
       ∧ fst (gorilla_Get (Store c) r (sessionName c)) !! sessionCookie
           = Some (SessionValue (fst (CookieStore_Get NewSession c r)))).
Proof.
  unfold CookieStore_Get.
  destruct (gorilla_Get (Store c) r (sessionName c)) as [values [err|]]; simpl.
  { repeat split; try done. }
  destruct (values !! sessionCookie) as [[sess|v]|]; simpl; repeat split; try done.
  all: intros; congruence.
Qed.

Lemma cookie_get_falls_back_to_new_session_witness :
  fst (CookieStore_Get freshSession emptyCookieStore plainRequest) = freshSession
  ∧ fst (gorilla_Get (Store savedCookieStore) plainRequest (sessionName savedCookieStore))
      !! sessionCookie
    = Some (SessionValue (fst (CookieStore_Get freshSession savedCookieStore
                                 plainRequest))).
Proof.
  split.
  - apply (cookie_get_falls_back_to_new_session freshSession emptyCookieStore
             plainRequest).
    reflexivity.
  - apply (cookie_get_falls_back_to_new_session freshSession savedCookieStore
             plainRequest).
    vm_compute. discriminate.
Defined.

(** X15: what [Save] writes, [Get] reads back.  [Save] puts the session
    under the session key of the values it got from the underlying store,
    leaves every other key as it was, and returns the error of the save of
    those values; when those values later come back from the underlying
    store, [Get] returns the session that was saved, without error.  When
    the underlying store cannot be read, [Save] returns that error and saves
    nothing. *)
Theorem cookie_save_then_get (NewSession : Session) (c c' : CookieStore)
  (r r' : Request) (session : Session) :
  (∀ saved,
     snd (CookieStore_Save c r session) = Some saved →
     fst (CookieStore_Save c r session) = gorilla_Save (Store c) r saved
     ∧ (∀ key, key ≠ sessionCookie →
          saved !! key = fst (gorilla_Get (Store c) r (sessionName c)) !! key)
     ∧ (gorilla_Get (Store c') r' (sessionName c') = (saved, None) →
          CookieStore_Get NewSession c' r' = (session, None)))
  ∧ (∀ err, snd (gorilla_Get (Store c) r (sessionName c)) = Some err →
       CookieStore_Save c r session = (Some err, None)).
Proof.
  unfold CookieStore_Save, CookieStore_Get.
  destruct (gorilla_Get (Store c) r (sessionName c)) as [values [err|]]; simpl.
  { split; [done|]. by intros ? [= <-]. }
  split; [|done].
  intros saved [= <-]. split; [done|]. split.
  - intros key Hkey. by rewrite lookup_insert_ne.
  - intros ->. by rewrite lookup_insert_eq.
Qed.

Lemma cookie_save_then_get_witness :
  CookieStore_Get freshSession savedCookieStore plainRequest = (sampleSession, None)
  ∧ CookieStore_Save
      {| Store := {| gorilla_Get := fun _ _ => (∅, Some (errorString "bad cookie"));
                     gorilla_Save := fun _ _ => None |};
         sessionName := "live" |} plainRequest sampleSession
    = (Some (errorString "bad cookie"), None).
Proof.
  pose proof (cookie_save_then_get freshSession emptyCookieStore savedCookieStore
                plainRequest plainRequest sampleSession) as [Hsaved _].
  destruct (Hsaved _ eq_refl) as (_ & _ & Hback).
  split; [apply Hback; reflexivity|].
  apply (cookie_save_then_get freshSession
           {| Store := {| gorilla_Get := fun _ _ => (∅, Some (errorString "bad cookie"));
                          gorilla_Save := fun _ _ => None |};
              sessionName := "live" |} emptyCookieStore plainRequest plainRequest
           sampleSession).
  reflexivity.
Defined.

(** ** Components *)

Lemma append_length (a b : string) :
  String.length (a +:+ b) = String.length a + String.length b.
Proof. induction a as [|x a IH]; simpl; [done|]. by rewrite IH. Qed.

Lemma append_inj_same_length (a1 a2 b1 b2 : string) :
  String.length a1 = String.length a2 →
  a1 +:+ b1 = a2 +:+ b2 → a1 = a2 ∧ b1 = b2.
Proof.
  revert a2.
  induction a1 as [|x a1 IH]; intros [|y a2] Hlen Heq; simpl in *; try done.
  injection Heq as -> Heq. injection Hlen as Hlen.
  destruct (IH a2 Hlen Heq) as [-> ->]. done.
Qed.

Lemma scoped_name_is_not_the_event (d : page.Data) (event : string) :
  page.Event d event ≠ event.
Proof.
  unfold page.Event. intros Heq. apply (f_equal String.length) in Heq.
  rewrite !append_length in Heq. simpl in Heq. lia.
Qed.

(** X16: the scoped name of an event is the identifier of the component,
    two dashes and the event.  For one component, different events have
    different scoped names; a scoped name is never the event itself; and two
    components whose identifiers have the same length never share a scoped
    name unless they have the same identifier and the event is the same. *)
Theorem scoped_event_names (d d' : page.Data) (event event' : string) :
  (page.Event d event = page.Event d event' → event = event')
  ∧ page.Event d event ≠ event
  ∧ (String.length (page.id d) = String.length (page.id d') →
       page.Event d event = page.Event d' event' →
       page.id d = page.id d' ∧ event = event').
Proof.
  unfold page.Event. split; [|split].
  - intros Heq.
    destruct (append_inj_same_length (page.id d) (page.id d) ("--" +:+ event)
                ("--" +:+ event') eq_refl Heq) as [_ Hrest].
    by injection Hrest.
  - intros Heq. apply (f_equal String.length) in Heq.
    rewrite !append_length in Heq. simpl in Heq. lia.
  - intros Hlen Heq.
    destruct (append_inj_same_length _ _ _ _ Hlen Heq) as [Hid Hrest].
    split; [done|]. by injection Hrest.
Qed.

Lemma scoped_event_names_witness :
  page.id cartData = page.id cartData ∧ "add" = "add".
Proof.
  apply (scoped_event_names cartData cartData "add" "add"); reflexivity.
Defined.

(** X17: a self handler registered on a component answers to the event name
    and to its scoped name alike: [CallSelf] with either name invokes the
    handler, with the socket of the component, and stores the state it
    returns; when the handler fails the error is returned as it is and the
    component is unchanged. *)
Theorem component_self_handler_both_names (ctx : Context) (event name : string)
  (handler : SelfHandler) (s : Socket) (selfData : any) (d : page.Data) :
  name = event ∨ name = page.Event d event →
  page.CallSelf ctx name s selfData (page.HandleSelf event handler d)
    = match handler ctx (page.Socket d) selfData with
      | (_, Some err) => (page.HandleSelf event handler d, Some err)
      | (state, None) =>
          (page.setState state (page.HandleSelf event handler d), None)
      end.
Proof.
  intros Hname.
  assert (page.selfHandlers (page.HandleSelf event handler d) !! name = Some handler)
    as Hfound.
  { cbn [page.selfHandlers page.HandleSelf]. destruct Hname as [-> | ->].
    - rewrite lookup_insert. case_decide; [done|]. by rewrite lookup_insert_eq.
    - by rewrite lookup_insert_eq. }
  unfold page.CallSelf. unfold SelfHandler in *. by rewrite Hfound.
Qed.

Lemma component_self_handler_both_names_witness :
  page.CallSelf (httpContext plainRequest) "cart--refresh" mountedSocket Nil
      (page.HandleSelf "refresh" loudSelf cartData)
    = (page.setState (AString "LOUD") (page.HandleSelf "refresh" loudSelf cartData), None)
  ∧ page.CallSelf (httpContext plainRequest) "refresh" mountedSocket Nil
      (page.HandleSelf "refresh" loudSelf cartData)
    = (page.setState (AString "LOUD") (page.HandleSelf "refresh" loudSelf cartData), None).
Proof.
  split.
  - apply (component_self_handler_both_names (httpContext plainRequest) "refresh"
             "cart--refresh" loudSelf mountedSocket Nil cartData).
    by right.
  - apply (component_self_handler_both_names (httpContext plainRequest) "refresh"
             "refresh" loudSelf mountedSocket Nil cartData).
    by left.
Defined.

(** X18: an event handler registered on a component answers to the name it
    was registered under and not to the scoped name: [CallEvent] with the
    registered name invokes the handler with the socket of the component,
    whatever socket it is given, and stores the state returned; with the
    scoped name, unless that name was registered as well, it returns an
    error that is [ErrNoEventHandler].  A call changes nothing but the state
    of the component and, when it returns an error, not even that. *)
Theorem component_event_call (ctx : Context) (event name : string)
  (handler : EventHandler) (s s' : Socket) (params : Params) (d : page.Data) :
  page.CallEvent ctx event s params (page.HandleEvent event handler d)
    = match handler ctx (page.Socket d) params with
      | (_, Some err) => (page.HandleEvent event handler d, Some err)
      | (state, None) =>
          (page.setState state (page.HandleEvent event handler d), None)
      end
  ∧ (page.eventHandlers d !! page.Event d event = None →
       fst (page.CallEvent ctx (page.Event d event) s params
              (page.HandleEvent event handler d)) = page.HandleEvent event handler d
       ∧ ∃ err, snd (page.CallEvent ctx (page.Event d event) s params
                       (page.HandleEvent event handler d)) = Some err
                ∧ Is err ErrNoEventHandler = true)
  ∧ page.CallEvent ctx name s params d = page.CallEvent ctx name s' params d
  ∧ page.id (fst (page.CallEvent ctx name s params d)) = page.id d
  ∧ page.Socket (fst (page.CallEvent ctx name s params d)) = page.Socket d
  ∧ page.eventHandlers (fst (page.CallEvent ctx name s params d)) = page.eventHandlers d
  ∧ page.selfHandlers (fst (page.CallEvent ctx name s params d)) = page.selfHandlers d
  ∧ (∀ err, snd (page.CallEvent ctx name s params d) = Some err →
       fst (page.CallEvent ctx name s params d) = d).
Proof.
  split; [|split; [|split]].
  - assert (page.eventHandlers (page.HandleEvent event handler d) !! event
            = Some handler) as Hfound.
    { cbn [page.eventHandlers page.HandleEvent]. by rewrite lookup_insert_eq. }
    unfold page.CallEvent. unfold EventHandler in *. by rewrite Hfound.
  - intros Hfree.
    assert (page.eventHandlers (page.HandleEvent event handler d)
              !! page.Event d event = None) as Hmissing.
    { cbn [page.eventHandlers page.HandleEvent].
      rewrite lookup_insert_ne; [done|].
      intros Heq. symmetry in Heq. revert Heq.
      apply (scoped_name_is_not_the_event d event). }
    unfold page.CallEvent. unfold EventHandler in *. rewrite Hmissing. simpl.
    split; [done|]. by eexists.
  - done.
  - unfold page.CallEvent.
    destruct (page.eventHandlers d !! name) as [found|]; simpl;
      [|by repeat split].
    destruct (found ctx (page.Socket d) params) as [state [err|]]; simpl;
      by repeat split.
Qed.

Lemma component_event_call_witness :
  fst (page.CallEvent (httpContext plainRequest) (page.Event cartData "add")
         mountedSocket ∅ (page.HandleEvent "add" shout cartData))
    = page.HandleEvent "add" shout cartData
  ∧ fst (page.CallEvent (httpContext plainRequest) "remove" mountedSocket ∅ cartData)
    = cartData.
Proof.
  pose proof (component_event_call (httpContext plainRequest) "add" "remove" shout
                mountedSocket mountedSocket ∅ cartData)
    as (_ & Hscoped & _ & _ & _ & _ & _ & Hkeep).
  split.
  - exact (proj1 (Hscoped eq_refl)).
  - apply (Hkeep (Errorf ("no event handler on component " +:+ quoted "cart" +:+ " for "
                            +:+ quoted "remove") ErrNoEventHandler)).
    reflexivity.
Defined.

Lemma configure_ok (configurations : list page.ComponentConfig) (c : page.Component) :
  componentSucceedFrom configurations c →
  page.configure configurations c = Ok (componentApplied configurations c).
Proof.
  revert c.
  induction configurations as [|conf rest IH]; intros c Hok; simpl in *; [done|].
  destruct Hok as [Hnil Hrest].
  unfold componentApplied; simpl. fold (componentApplied rest (fst (conf c))).
  destruct (conf c) as [c' err]; simpl in *; subst err.
  by apply IH.
Qed.

Lemma configure_first_failure (pre post : list page.ComponentConfig)
  (conf : page.ComponentConfig) (c : page.Component) (e : error) :
  componentSucceedFrom pre c →
  snd (conf (componentApplied pre c)) = Some e →
  page.configure (pre ++ conf :: post) c = Fail e.
Proof.
  revert c.
  induction pre as [|x pre IH]; intros c Hok Hfail; simpl in *.
  - unfold componentApplied in Hfail; simpl in Hfail.
    destruct (conf c) as [c' err]; simpl in *; by subst err.
  - destruct Hok as [Hnil Hrest].
    unfold componentApplied in Hfail; simpl in Hfail.
    fold (componentApplied pre (fst (x c))) in Hfail.
    destruct (x c) as [c' err]; simpl in *; subst err.
    by apply IH.
Qed.

(** X19: [NewComponent] applies its configurations in the order given to a
    component that has the identifier and the socket given, no state, no
    handler and the default hooks.  When all of them succeed the component
    is attached to the socket and returned.  When one fails the construction
    stops there: the error of that configuration is returned as it is, the
    component returned is the empty one, and nothing is attached.  The
    three configurations of the package never fail and each sets its hook
    only. *)
Theorem NewComponent_configurations (ID : string) (s : Socket)
  (configurations : list page.ComponentConfig) :
  (componentSucceedFrom configurations (componentDefaults ID s) →
     page.NewComponent ID s configurations
       = (Ok (componentApplied configurations (componentDefaults ID s)),
          Some (componentApplied configurations (componentDefaults ID s))))
  ∧ (∀ pre conf post e,
       configurations = pre ++ conf :: post →
       componentSucceedFrom pre (componentDefaults ID s) →
       snd (conf (componentApplied pre (componentDefaults ID s))) = Some e →
       page.NewComponent ID s configurations = (Fail e, None))
  ∧ (∀ c register mount render,
       snd (page.WithRegister register c) = None
       ∧ snd (page.WithMount mount c) = None
       ∧ snd (page.WithRender render c) = None
       ∧ page.data (fst (page.WithRegister register c)) = page.data c
       ∧ page.data (fst (page.WithMount mount c)) = page.data c
       ∧ page.data (fst (page.WithRender render c)) = page.data c
       ∧ page.Register (fst (page.WithRegister register c)) = register
       ∧ page.Mount (fst (page.WithMount mount c)) = mount
       ∧ page.Render (fst (page.WithRender render c)) = render).
Proof.
  split; [|split].
  - intros Hok. unfold page.NewComponent. cbv zeta.
    fold (componentDefaults ID s). by rewrite (configure_ok _ _ Hok).
  - intros pre conf post e -> Hok Hfail. unfold page.NewComponent. cbv zeta.
    fold (componentDefaults ID s).
    by rewrite (configure_first_failure pre post conf _ e Hok Hfail).
  - by repeat split.
Qed.

Lemma NewComponent_configurations_witness :
  page.NewComponent "cart" mountedSocket [page.WithMount counterMount]
    = (Ok (componentApplied [page.WithMount counterMount]
             (componentDefaults "cart" mountedSocket)),
       Some (componentApplied [page.WithMount counterMount]
               (componentDefaults "cart" mountedSocket)))
  ∧ page.NewComponent "cart" mountedSocket
      [page.WithMount counterMount; brokenConfig; page.WithRender page.defaultRender]
    = (Fail (errorString "no template"), None).
Proof.
  split.
  - apply (NewComponent_configurations "cart" mountedSocket
             [page.WithMount counterMount]).
    simpl. auto.
  - apply (proj1 (proj2 (NewComponent_configurations "cart" mountedSocket
             [page.WithMount counterMount; brokenConfig;
              page.WithRender page.defaultRender]))
             [page.WithMount counterMount] brokenConfig
             [page.WithRender page.defaultRender] (errorString "no template")).
    + reflexivity.
    + simpl. auto.
    + reflexivity.
Defined.

(** X20: [Init] runs the constructor, then the Register hook, then the
    Mount hook on the component as Register left it, and stops at the first
    of the three that fails: a component is returned only when all three
    succeeded, and it is the constructed one with the data that Mount left;
    otherwise the error returned wraps the error of the stage that failed,
    with a message that names the stage. *)
Theorem Init_stages (ctx : Context) (construct : result page.Component) :
  match page.Init ctx construct with
  | Ok c =>
      ∃ comp registered,
        construct = Ok comp
        ∧ page.Register comp (page.data comp) = (registered, None)
        ∧ page.Mount comp ctx registered = (page.data c, None)
        ∧ c = page.setData (page.data c) comp
  | Fail e =>
      (∃ err, construct = Fail err
              ∧ e = Errorf "could not install component on construct" err)
      ∨ (∃ comp d err,
           construct = Ok comp
           ∧ page.Register comp (page.data comp) = (d, Some err)
           ∧ e = Errorf "could not install component on register" err)
      ∨ (∃ comp registered d err,
           construct = Ok comp
           ∧ page.Register comp (page.data comp) = (registered, None)
           ∧ page.Mount comp ctx registered = (d, Some err)
           ∧ e = Errorf "could not install component on mount" err)
  end.
Proof.
  unfold page.Init.
  destruct construct as [comp|err]; [|left; by eexists].
  destruct (page.Register comp (page.data comp)) as [registered [err|]] eqn:Hreg.
  { right. left. by do 3 eexists. }
  destruct (page.Mount comp ctx registered) as [mounted [err|]] eqn:Hmount.
  { right. right. by do 4 eexists. }
  by do 2 eexists.
Qed.

(** ** Failures at the start of a connection, and the default answer *)

(** X21: with the error handler that [NewHandler] installs, every call of
    the Error handler on the stateless path answers status 500 followed by
    the text of the error when the context carries a response writer, and
    writes nothing when it does not. *)
Theorem default_error_answer `{Platform} (h : HTTPHandler) (ctx : Context)
  (r : Request) (sid : SocketID) (w : World) :
  getError (base h) = getError (fst (NewHandler [])) →
  ∃ done,
    trace (fst (serveHTTP h ctx r sid w)) = trace w ++ done
    ∧ Forall (fun effect =>
                match effect with
                | EError e ops =>
                    ops = if ctxWriter ctx
                          then [WriteHeader 500; WriteBytes (ErrorText e)]
                          else []
                | _ => True
                end) done.
Proof.
  intros Hdefault. unfold serveHTTP, callError. rewrite Hdefault.
  destruct (store_Get (sessionStore h) r) as [session [err|]].
  { case_decide; simpl.
    - eexists. split; [done|]. by repeat constructor.
    - eexists. split; [by rewrite <- !app_assoc|]. by repeat constructor. }
  cbv zeta.
  destruct (getMount (base h) ctx _) as [data [err|]].
  { simpl. eexists. split; [done|]. by repeat constructor. }
  destruct (runParams _ ctx _ _) as [s1 [err|]].
  { simpl. eexists. split; [done|]. by repeat constructor. }
  destruct (RenderSocket (base h) ctx s1) as [s2 [render|err]].
  - destruct (store_Save (sessionStore h) r session) as [err|]; simpl.
    + eexists. split; [by rewrite <- !app_assoc|]. by repeat constructor.
    + eexists. split; [by rewrite <- !app_assoc|]. by repeat constructor.
  - simpl. eexists. split; [done|]. by repeat constructor.
Qed.

Lemma default_error_answer_witness :
  ∃ done,
    trace (fst (serveHTTP (H := samplePlatform) mountFailsHandler
                  (httpContext plainRequest) plainRequest "sock-1" emptyWorld))
      = trace emptyWorld ++ done
    ∧ Forall (fun effect =>
                match effect with
                | EError e ops =>
                    ops = if ctxWriter (httpContext plainRequest)
                          then [WriteHeader 500; WriteBytes (ErrorText e)]
                          else []
                | _ => True
                end) done.
Proof.
  apply (default_error_answer (H := samplePlatform) mountFailsHandler
           (httpContext plainRequest) plainRequest "sock-1" emptyWorld).
  reflexivity.
Defined.


